(** * reddit-music-player: playback controls, SoundCloud adapter, feed fetch
      hook and listing proxy

    A shallow embedding of the source files of the repository:

    - [src/components/controls.tsx]: the progress bar and [handleSeek]
      (module [Controls]);
    - [src/unnamed/part_000]: the SoundCloud player component (module
      [SoundCloudPlayer]);
    - [src/unnamed/part_001]: the [useRedditMusic] hook (module
      [RedditMusic]) and [useInitializeApp] (module [InitializeApp]);
    - [src/app/api/comments/route.ts]: the listing proxy [GET /api/get/*]
      (module [Proxy]) and the comments route (module [Comments]).

    The volume slider and the seeking state of the controls, the effects of
    the SoundCloud component and the keyboard shortcuts are embedded in
    [ControlsHandlers], [SoundCloudEffects] and [Shortcuts].

    Line numbers are those of these files.

    Conventions.  A JavaScript number is a value of [Js.number]: NaN, the two
    infinities, or a finite value carried as a rational; every arithmetic
    operation rounds its exact result through a [Js.Rounding].  A bound is
    proved for every rounding, or for every rounding to nearest
    ([Js.Nearest]), of which the arithmetic of IEEE doubles is one (signed
    zeros are not distinguished); [Js.exact] and [Js.fixed] are used to
    evaluate the code at concrete inputs.  A callback, a store action or a
    command sent to an external player is recorded as an item of a trace, in
    program order.  An [await] splits a function into the part before it and
    one continuation per awaiting point, which receives the outcome of the
    awaited promise.  Texts that are only logged are left out. *)

From stdpp Require Import gmap strings list pretty.
From Stdlib Require Import Ascii QArith Qabs Qround.

Close Scope Q_scope.

Set Warnings "-register-all".
Set Default Proof Using "Type".

(* ===================================================================== *)
(** * Part I. The embedding                                               *)
(* ===================================================================== *)

(** ** JavaScript values *)

Module Js.

Inductive number :=
| NaN
| PInf
| NInf
| Fin (q : Q).

(** Rounding of an exact result to a representable number.  A double
    operation on finite operands may overflow to an infinity but never
    yields NaN from an exact rational result. *)
Class Rounding := {
  round : Q -> number;
  round_not_nan : forall q, round q <> NaN
}.

Definition lit (z : Z) : number := Fin (inject_Z z).

Definition isNaN (a : number) : bool :=
  match a with NaN => true | _ => false end.

Definition isFinite (a : number) : bool :=
  match a with Fin _ => true | _ => false end.

(** [a < b] *)
Definition lt (a b : number) : bool :=
  match a, b with
  | NaN, _ | _, NaN => false
  | Fin x, Fin y => negb (Qle_bool y x)
  | NInf, NInf => false
  | NInf, _ => true
  | _, NInf => false
  | PInf, _ => false
  | Fin _, PInf => true
  end.

(** [a > b] *)
Definition gt (a b : number) : bool := lt b a.

(** [a >= b] *)
Definition ge (a b : number) : bool :=
  match a, b with
  | NaN, _ | _, NaN => false
  | _, _ => negb (lt a b)
  end.

(** [a === b] on numbers *)
Definition eqb (a b : number) : bool :=
  match a, b with
  | Fin x, Fin y => Qeq_bool x y
  | PInf, PInf | NInf, NInf => true
  | _, _ => false
  end.

Definition Math_max (a b : number) : number :=
  match a, b with
  | NaN, _ | _, NaN => NaN
  | _, _ => if lt a b then b else a
  end.

Definition Math_min (a b : number) : number :=
  match a, b with
  | NaN, _ | _, NaN => NaN
  | _, _ => if lt b a then b else a
  end.

Definition neg (a : number) : number :=
  match a with
  | NaN => NaN
  | PInf => NInf
  | NInf => PInf
  | Fin q => Fin (- q)
  end.

Definition Math_abs (a : number) : number :=
  match a with
  | NaN => NaN
  | PInf | NInf => PInf
  | Fin q => Fin (Qabs q)
  end.

Section Arith.
Context {R : Rounding}.

(** [a * b] *)
Definition mul (a b : number) : number :=
  match a, b with
  | NaN, _ | _, NaN => NaN
  | Fin x, Fin y => round (x * y)
  | Fin x, inf | inf, Fin x =>
      if Qeq_bool x 0 then NaN
      else if Qle_bool 0 x then inf else neg inf
  | PInf, PInf | NInf, NInf => PInf
  | PInf, NInf | NInf, PInf => NInf
  end.

(** [a / b] *)
Definition div (a b : number) : number :=
  match a, b with
  | NaN, _ | _, NaN => NaN
  | Fin x, Fin y =>
      if Qeq_bool y 0 then
        if Qeq_bool x 0 then NaN
        else if Qle_bool 0 x then PInf else NInf
      else round (x / y)
  | Fin _, _ => Fin 0
  | inf, Fin y => if Qle_bool 0 y then inf else neg inf
  | _, _ => NaN
  end.

(** [a - b] *)
Definition sub (a b : number) : number :=
  match a, b with
  | NaN, _ | _, NaN => NaN
  | Fin x, Fin y => round (x - y)
  | PInf, PInf | NInf, NInf => NaN
  | PInf, _ | _, NInf => PInf
  | NInf, _ | _, PInf => NInf
  end.
End Arith.

(** Exact arithmetic: no rounding at all.  It serves to evaluate the code at
    a concrete input; what is proved of the program's arithmetic is proved
    for every rounding, or for every rounding to nearest. *)
Definition exact : Rounding :=
  {| round := Fin;
     round_not_nan := fun q (H : Fin q = NaN) =>
       eq_ind (Fin q) (fun n => if isFinite n then True else False) I NaN H |}.

(** The order of the numbers other than NaN. *)
Definition le (a b : number) : Prop :=
  match a, b with
  | NaN, _ | _, NaN => False
  | NInf, _ | _, PInf => True
  | Fin x, Fin y => (x <= y)%Q
  | _, _ => False
  end.

(** [q] is a number of the arithmetic: rounding gives it back. *)
Definition representable {R : Rounding} (q : Q) : Prop :=
  exists q', round q = Fin q' /\ (q' == q)%Q.

(** The laws of rounding to nearest that the bounds below rest on.  The
    arithmetic of IEEE 754 doubles has both: rounding keeps the order of the
    exact results, and every integer up to 2^53 in absolute value is a
    double. *)
Class Nearest (R : Rounding) := {
  round_le : forall p q, (p <= q)%Q -> le (round p) (round q);
  round_integer : forall z, (Z.abs z <= 2 ^ 53)%Z -> representable (inject_Z z)
}.

(** A coarse arithmetic that really rounds: every result is rounded to the
    nearest multiple of 1/1024, halves upwards. *)
Definition fixed : Rounding :=
  {| round := fun q => Fin (inject_Z (Qfloor (q * 1024 + (1 # 2))) / 1024);
     round_not_nan := fun q (H : Fin _ = NaN) =>
       eq_ind (Fin (inject_Z (Qfloor (q * 1024 + (1 # 2))) / 1024))
         (fun n => if isFinite n then True else False) I NaN H |}.

(** An error value as the code inspects it: [error?.name], [error?.code]
    and [error instanceof SyntaxError]. *)
Record error := {
  name : string;
  code : option string;
  isSyntaxError : bool
}.

Definition AbortError : error :=
  {| name := "AbortError"; code := None; isSyntaxError := false |}.
Definition TypeError : error :=
  {| name := "TypeError"; code := None; isSyntaxError := false |}.
Definition SyntaxError : error :=
  {| name := "SyntaxError"; code := None; isSyntaxError := true |}.
(** [new Error(...)] *)
Definition Error : error :=
  {| name := "Error"; code := None; isSyntaxError := false |}.
Definition RangeError : error :=
  {| name := "RangeError"; code := None; isSyntaxError := false |}.

(** How an awaited promise settles. *)
Inductive outcome (A : Type) :=
| Resolved (a : A)
| Rejected (e : error).
Arguments Resolved {A} a.
Arguments Rejected {A} e.

(** A JSON document, as [response.json()] produces it. *)
Inductive json :=
| JNull
| JBool (b : bool)
| JNum (n : number)
| JStr (s : string)
| JArr (l : list json)
| JObj (o : gmap string json).

(** A JavaScript value read from a JSON document: [None] is [undefined]. *)
Definition value := option json.

(** Truthiness, as [!v], [v || w] and [if (v)] test it. *)
Definition truthy (v : value) : bool :=
  match v with
  | None | Some JNull => false
  | Some (JBool b) => b
  | Some (JNum n) =>
      match n with NaN => false | Fin q => negb (Qeq_bool q 0) | _ => true end
  | Some (JStr s) => negb (String.eqb s "")
  | Some (JArr _) | Some (JObj _) => true
  end.

(** [v.f]: [None] when reading the property throws a TypeError ([v] is
    [null] or [undefined]); otherwise the property's value, [undefined] when
    absent.  Own properties of JSON objects only. *)
Definition get (f : string) (v : value) : option value :=
  match v with
  | None | Some JNull => None
  | Some (JObj o) => Some (o !! f)
  | Some _ => Some None
  end.

(** [typeof v !== 'object'] *)
Definition typeof_object (v : value) : bool :=
  match v with
  | Some JNull | Some (JArr _) | Some (JObj _) => true
  | _ => false
  end.

(** Truthiness of a string-or-undefined parameter such as [after?: string]. *)
Definition truthy_str (s : option string) : bool :=
  match s with Some s => negb (String.eqb s "") | None => false end.

End Js.

Import Js.

(** ** The playlist store ([@/lib/store])

    The store module is not among the source files; the components above it
    are.  Its data is taken from what they read, its operations from the
    specification of the queue manager and of the playback state. *)

Module Store.

(** The fields of a song that the code reads ([song.url], [currentSong.id]). *)
Record Song := {
  id : string;
  title : string;
  url : string
}.

(** The action a message button runs: the closure
    [() => fetchMusicForSubreddits(subreddits, after)], by its captured
    variables. *)
Inductive Callback :=
| retry_fetchMusicForSubreddits (subreddits : list string) (after : option string).

Record Button := {
  btn_text : string;
  btn_className : string;
  btn_callback : Callback
}.

Record Message := {
  msg_type : string;
  msg_text : string;
  msg_buttons : list Button
}.

Record PlaybackState := {
  currentSong : option Song;
  isPlaying : bool;
  currentTime : number;
  duration : number;
  volume : Z
}.

Record Queue := {
  songs : list Song;
  currentIndex : Z;
  after : option json
}.

Record State := {
  playback : PlaybackState;
  queue : Queue;
  loading : bool;
  messages : list Message
}.

(** [id] is already in the queue. *)
Definition has_id (q : list Song) (i : string) : bool :=
  existsb (fun s => String.eqb (id s) i) q.

(** Modelled from the spec: the store's [setSongs] is not in the source
    files.  "[setAll(songs)] replaces the queue and resets [currentIndex] to 0
    if non-empty, else -1." *)
Definition setSongs (new : list Song) (s : State) : State :=
  {| playback := playback s;
     queue := {| songs := new;
                 currentIndex := if bool_decide (new = []) then -1 else 0;
                 after := after (queue s) |};
     loading := loading s;
     messages := messages s |}.

(** Modelled from the spec: the store's [addSongs] is not in the source
    files.  "[append(songs)] deduplicates against existing [id]s before
    appending." *)
Definition addSongs (new : list Song) (s : State) : State :=
  let old := songs (queue s) in
  {| playback := playback s;
     queue := {| songs := old ++ List.filter (fun x => negb (has_id old (id x))) new;
                 currentIndex := currentIndex (queue s);
                 after := after (queue s) |};
     loading := loading s;
     messages := messages s |}.

(** Modelled from the spec: the store's [forward] is not in the source
    files.  "[advance()] moves [currentIndex+1]; if beyond the end, it is a
    no-op [...].  Both advance/retreat reset PlaybackState's
    [currentTime]/[duration] to 0 and set [currentSong]." *)
Definition forward (s : State) : State :=
  let i := (currentIndex (queue s) + 1)%Z in
  match (if bool_decide (0 <= i)%Z then songs (queue s) !! Z.to_nat i else None) with
  | Some next =>
      {| playback := {| currentSong := Some next;
                        isPlaying := isPlaying (playback s);
                        currentTime := lit 0;
                        duration := lit 0;
                        volume := volume (playback s) |};
         queue := {| songs := songs (queue s);
                     currentIndex := i;
                     after := after (queue s) |};
         loading := loading s;
         messages := messages s |}
  | None => s
  end.

(** Modelled from the spec: the pagination cursor is a field of the queue,
    which [setAfter] stores. *)
Definition setAfter (a : option json) (s : State) : State :=
  {| playback := playback s;
     queue := {| songs := songs (queue s);
                 currentIndex := currentIndex (queue s);
                 after := a |};
     loading := loading s;
     messages := messages s |}.

(** Modelled from the spec: the store's [setLoading] is not in the source
    files; the loading flag is a field of its own, which the queue and the
    playback state do not depend on. *)
Definition setLoading (b : bool) (s : State) : State :=
  {| playback := playback s; queue := queue s;
     loading := b; messages := messages s |}.

(** Modelled from the spec: the store's [addMessage] is not in the source
    files; the pipeline "surfaces a user-facing message with a retry action",
    which the store keeps in the order the messages were added. *)
Definition addMessage (m : Message) (s : State) : State :=
  {| playback := playback s; queue := queue s;
     loading := loading s; messages := messages s ++ [m] |}.

End Store.

(** ** [src/components/controls.tsx] *)

Module Controls.

(** What [Controls] reads from the store and from its own state. *)
Record View := {
  isPlaying : bool;
  currentTime : number;
  duration : number;
  currentSong : option Store.Song;
  seekingTime : option number
}.

(** The click on the progress bar: [e.clientX] and the bar's bounding
    rectangle. *)
Record Click := {
  clientX : number;
  rect_left : number;
  rect_width : number
}.

(** The player handles [handleSeek] finds on [window], each with the answer
    the player gives to the one query made of it after the seek. *)
Record Window := {
  YT : bool;
  (** [player.getPlayerState()] *)
  __youtubePlayer : option Z;
  __vimeoPlayer : bool;
  (** [audio.paused] *)
  __mp3AudioRef : option bool;
  __soundcloudWidget : bool
}.

(** What [handleSeek] and its callbacks do, in order. *)
Inductive Command :=
| setSeekingTime (t : option number)
| seekTo (t : number)
| youtube_seekTo (t : number) (allowSeekAhead : bool)
| youtube_playVideo
| vimeo_setCurrentTime (t : number)
| vimeo_getPaused
| vimeo_play
| audio_set_currentTime (t : number)
| audio_play
| soundcloud_getDuration
| soundcloud_seekTo (milliseconds : number)
| soundcloud_play
| setTimeout_clear_seekingTime (ms : Z).

(** [const displayTime = seekingTime !== null ? seekingTime : currentTime] *)
Definition displayTime (v : View) : number :=
  match seekingTime v with
  | Some t => t
  | None => currentTime v
  end.

Section Numbers.
Context {R : Rounding}.

(** [displayPercentage], lines 154-158. *)
Definition displayPercentage (v : View) : number :=
  if bool_decide (is_Some (currentSong v))
     && gt (duration v) (lit 0)
     && negb (isNaN (duration v))
     && negb (isNaN (displayTime v))
     && isFinite (duration v)
     && isFinite (displayTime v)
  then
    let calculated := mul (div (displayTime v) (duration v)) (lit 100) in
    Math_max (lit 0) (Math_min (lit 100) calculated)
  else lit 0.

(** The test of the effect that clears [seekingTime] (line 144):
    [Math.abs(currentTime - seekingTime) < 0.5]. *)
Definition caught_up (currentTime seekingTime : number) : bool :=
  lt (Math_abs (sub currentTime seekingTime)) (Fin (1 # 2)).

(** [newTime] of [handleSeek], lines 50-53. *)
Definition newTime (v : View) (e : Click) : number :=
  let x := sub (clientX e) (rect_left e) in
  let percentage :=
    Math_max (lit 0) (Math_min (lit 100) (mul (div x (rect_width e)) (lit 100))) in
  mul (div percentage (lit 100)) (duration v).

(** The synchronous part of [handleSeek], lines 47-130.  A player call that
    throws is caught and ignored by the code; the trace is that of calls that
    do not throw. *)
Definition handleSeek (v : View) (e : Click) (w : Window) : list Command :=
  if eqb (duration v) (lit 0) then []
  else
    let newTime := newTime v e in
    let wasPlaying := isPlaying v in
    [setSeekingTime (Some newTime); seekTo newTime]
    ++ (match YT w, __youtubePlayer w with
        | true, Some state =>
            youtube_seekTo newTime true
            :: (if wasPlaying && negb (state =? 1)%Z then [youtube_playVideo] else [])
        | _, _ => []
        end)
    ++ (if __vimeoPlayer w then [vimeo_setCurrentTime newTime] else [])
    ++ (match __mp3AudioRef w with
        | Some paused =>
            audio_set_currentTime newTime
            :: (if wasPlaying && paused then [audio_play] else [])
        | None => []
        end)
    ++ (if __soundcloudWidget w then [soundcloud_getDuration] else [])
    ++ [setTimeout_clear_seekingTime 100].



(** The callback of [widget.getDuration], lines 113-120; its parameter
    [duration] is what the widget answers. *)
Definition soundcloud_duration (newTime : number) (wasPlaying : bool)
    (duration : number) : list Command :=
  let seekPosition := mul (div newTime duration) (lit 1000) in
  soundcloud_seekTo seekPosition
  :: (if wasPlaying then [soundcloud_play] else []).

End Numbers.

End Controls.

(** ** The SoundCloud player component *)

Module SoundCloudPlayer.

(** The props the handlers close over. *)
Record Props := {
  song : Store.Song;
  volume : number;
  isPlaying : bool;
  currentTime : number
}.

(** The globals the component keeps on [window]; [__soundcloudUrl] is
    [undefined] until a widget has become ready. *)
Record Window := {
  __soundcloudWidget : bool;
  __soundcloudUrl : option string
}.

(** What the handlers read from [usePlaylistStore.getState()]. *)
Record StoreView := {
  currentIndex : Z;
  songs_length : Z
}.

(** What the event handlers do, in order: calls of the callback props, of
    the widget and of the store. *)
Inductive Call :=
| setIsReady (b : bool)
| onStateChange (isPlaying : bool)
| onTimeUpdate (currentTime : number)
| onDurationChange (duration : number)
| widget_setVolume (v : number)
| widget_getDuration
| widget_seekTo (milliseconds : number)
| widget_play
| store_forward.

Section Numbers.
Context {R : Rounding}.

(** The handler of [READY], lines 74-96: the trace and the globals it
    leaves. *)
Definition READY (p : Props) (w : Window) : list Call * Window :=
  ([setIsReady true; widget_setVolume (div (volume p) (lit 100)); widget_getDuration]
   ++ (if gt (currentTime p) (lit 0)
       then [widget_seekTo (mul (currentTime p) (lit 1000))] else [])
   ++ (if isPlaying p then [widget_play] else []),
   {| __soundcloudWidget := true;
      __soundcloudUrl := Some (Store.url (song p)) |}).

(** The callback of [getDuration] in the [READY] handler, lines 82-86. *)
Definition READY_duration (duration : number) : list Call :=
  if gt duration (lit 0) && isFinite duration
  then [onDurationChange (div duration (lit 1000))] else [].

(** The handler of [PLAY_PROGRESS], lines 98-113, on an event whose
    [currentPosition] is given.  It returns its trace and, when it asks the
    widget for the duration, the [currentUrl] its callback closes over. *)
Definition PLAY_PROGRESS (p : Props) (w : Window) (currentPosition : number)
    : list Call * option (option string) :=
  let currentUrl := __soundcloudUrl w in
  if bool_decide (currentUrl = Some (Store.url (song p))) then
    let time := div currentPosition (lit 1000) in
    ((if ge time (lit 0) && isFinite time then [onTimeUpdate time] else [])
     ++ [widget_getDuration],
     Some currentUrl)
  else ([], None).

(** The callback of [getDuration] in the [PLAY_PROGRESS] handler, lines
    107-111; [currentUrl] is the constant of the enclosing handler. *)
Definition PLAY_PROGRESS_duration (p : Props) (currentUrl : option string)
    (duration : number) : list Call :=
  if bool_decide (currentUrl = Some (Store.url (song p)))
     && gt duration (lit 0) && isFinite duration
  then [onDurationChange (div duration (lit 1000))] else [].

End Numbers.

(** The handler of [FINISHED], lines 115-123. *)
Definition FINISHED (store : StoreView) : list Call :=
  onStateChange false
  :: (if bool_decide (currentIndex store < songs_length store - 1)%Z
      then [store_forward] else []).

(** The store a handler sees: [getState()] of the playlist store. *)
Definition view (s : Store.State) : StoreView :=
  {| currentIndex := Store.currentIndex (Store.queue s);
     songs_length := Z.of_nat (length (Store.songs (Store.queue s))) |}.

(** The effect of a trace on the store: [store.forward()] is the store's
    action; the callback props belong to the parent component, which is not
    among the source files, and are kept as trace items only. *)
Definition on_store (c : Call) (s : Store.State) : Store.State :=
  match c with
  | store_forward => Store.forward s
  | _ => s
  end.

End SoundCloudPlayer.

(** ** The [useRedditMusic] hook *)

Module RedditMusic.

(** What the hook reads from the store when it is rendered. *)
Record StoreView := {
  selectedSubreddits : list string;
  sortMethod : string;
  topMethod : string;
  searchQuery : string
}.

(** The store actions the hook calls, in order. *)
Inductive Action :=
| setLoading (b : bool)
| setSongs (songs : list Store.Song)
| addSongs (songs : list Store.Song)
| setAfter (after : option json)
| addMessage (m : Store.Message).

(** One hook instance: [abortControllerRef.current], the controllers whose
    [signal.aborted] is set, and the next controller [new AbortController()]
    makes.  A controller is named by a number. *)
Record Hook := {
  abortControllerRef : option nat;
  aborted : gset nat;
  fresh : nat
}.

(** The two fetch functions differ in the URL they build and in their
    [catch] branch only; [Target] tells them apart. *)
Inductive Target :=
| Search (query : string)
| Subreddits (subreddits : list string).

(** The call of [fetch]: the URL, the query parameters in the order they are
    appended, and the controller whose signal is passed. *)
Record Request := {
  url : string;
  params : list (string * string);
  signal : nat
}.

(** A call suspended at an [await]: its arguments and its controller. *)
Record Task := {
  target : Target;
  after : option string;
  abortController : nat
}.

(** The head of the response: [response.ok] and [response.status]. *)
Record Response := {
  ok : bool;
  status : Z
}.

Inductive Settled :=
| returned (songs : list Store.Song)
| threw (e : error).

(** What a call does after a continuation has run. *)
Inductive Next :=
| await_text
| await_json
| settled (r : Settled).

Record Step := {
  hook : Hook;
  actions : list Action;
  next : Next
}.

(** Lines 35-38 and 122-125: [if (abortControllerRef.current)
    abortControllerRef.current.abort()]. *)
Definition abort_ongoing (h : Hook) : Hook :=
  match abortControllerRef h with
  | Some c => {| abortControllerRef := Some c;
                 aborted := {[ c ]} ∪ aborted h;
                 fresh := fresh h |}
  | None => h
  end.

(** The query parameters, lines 48-57 and 137-145. *)
Definition build_params (v : StoreView) (t : Target) (after : option string)
    : list (string * string) :=
  (match t with Search query => [("q", query)] | Subreddits _ => [] end)
  ++ (if String.eqb (sortMethod v) "top" then [("t", topMethod v)] else [])
  ++ (match after with
      | Some a => if truthy_str after then [("after", a)] else []
      | None => []
      end)
  ++ [("limit", "100")].

Definition build_url (v : StoreView) (t : Target) : string :=
  match t with
  | Search _ => "/api/get/search.json"
  | Subreddits subreddits =>
      "/api/get/r/" +:+ String.concat "+" subreddits +:+ "/" +:+ sortMethod v +:+ ".json"
  end.

(** What a fetch function has done when it reaches [await fetch]. *)
Record Started := {
  started_hook : Hook;
  started_actions : list Action;
  request : Request;
  task : Task
}.

(** The part of a fetch function before [await fetch], lines 35-63 and
    122-151. *)
Definition start (v : StoreView) (t : Target) (after : option string) (h : Hook)
    : Started :=
  let h1 := abort_ongoing h in
  let abortController := fresh h1 in
  let h2 := {| abortControllerRef := Some abortController;
               aborted := aborted h1;
               fresh := S (fresh h1) |} in
  {| started_hook := h2;
     started_actions := [setLoading true];
     request := {| url := build_url v t; params := build_params v t after;
                   signal := abortController |};
     task := {| target := t; after := after; abortController := abortController |} |}.

Definition fetchSearch (v : StoreView) (query : string) (after : option string)
    (h : Hook) : Started :=
  start v (Search query) after h.

Definition fetchMusicForSubreddits (v : StoreView) (subreddits : list string)
    (after : option string) (h : Hook) : Started :=
  start v (Subreddits subreddits) after h.

(** [fetchMusic], lines 20-32. *)
Definition fetchMusic (v : StoreView) (after : option string) (h : Hook)
    : Started :=
  if negb (String.eqb (searchQuery v) "") then
    fetchSearch v (searchQuery v) after h
  else if bool_decide (length (selectedSubreddits v) = 0) then
    fetchMusicForSubreddits v ["listentothis"] after h
  else
    fetchMusicForSubreddits v (selectedSubreddits v) after h.

(** The message of the [catch] branch of [fetchMusicForSubreddits], lines
    209-221. *)
Definition failed_message (subreddits : list string) (after : option string)
    : Store.Message :=
  {| Store.msg_type := "error";
     Store.msg_text := "Failed to load music from Reddit.";
     Store.msg_buttons :=
       [ {| Store.btn_text := "Try again";
            Store.btn_className := "yellow";
            Store.btn_callback :=
              Store.retry_fetchMusicForSubreddits subreddits after |} ] |}.

(** The [catch] branch, lines 107-112 and 200-223. *)
Definition catch_ (t : Task) (e : error) : list Action * Settled :=
  if String.eqb (name e) "AbortError" then ([], returned [])
  else
    match target t with
    | Search _ => ([], threw e)
    | Subreddits subreddits =>
        ([addMessage (failed_message subreddits (after t))], threw e)
    end.

(** The [finally] branch, lines 113-118 and 224-230. *)
Definition finally_ (t : Task) (h : Hook) : Hook * list Action :=
  if bool_decide (abortController t ∈ aborted h) then (h, [])
  else ({| abortControllerRef := None; aborted := aborted h; fresh := fresh h |},
        [setLoading false]).

(** Leaving the [try] block by [return]. *)
Definition return_ (t : Task) (h : Hook) (acts : list Action)
    (songs : list Store.Song) : Step :=
  let '(h', fin) := finally_ t h in
  {| hook := h'; actions := acts ++ fin; next := settled (returned songs) |}.

(** Leaving the [try] block by an exception. *)
Definition throw_ (t : Task) (h : Hook) (e : error) : Step :=
  let '(acts, r) := catch_ t e in
  let '(h', fin) := finally_ t h in
  {| hook := h'; actions := acts ++ fin; next := settled r |}.

Section Parser.
(** [filterPlayableSongs] and [parseSong] of [@/lib/utils/song-parser], which
    is not among the source files.  [parseSong] gives [None] when it throws
    or returns [null]; both are dropped by the caller. *)
Variable filterPlayableSongs : list json -> list json.
Variable parseSong : value -> option Store.Song.

(** The continuation of [await fetch], lines 65-73 and 153-162. *)
Definition after_fetch (t : Task) (h : Hook) (o : outcome Response) : Step :=
  match o with
  | Rejected e => throw_ t h e
  | Resolved response =>
      if bool_decide (abortController t ∈ aborted h) then return_ t h [] []
      else if negb (ok response) then
        {| hook := h; actions := []; next := await_text |}
      else
        {| hook := h; actions := []; next := await_json |}
  end.

(** The continuation of [await response.text()], lines 70-72 and 159-161. *)
Definition after_text (t : Task) (h : Hook) (o : outcome string) : Step :=
  match o with
  | Rejected e => throw_ t h e
  | Resolved errorText => throw_ t h Error
  end.

(** [filteredItems.map(...).filter(song => song !== null)], lines 88-95 and
    180-187: reading [item.data] of a [null] item throws inside the [try]. *)
Definition parse_items (items : list json) : list Store.Song :=
  omap (fun item =>
          match get "data" (Some item) with
          | Some data => parseSong data
          | None => None
          end) items.

(** The continuation of [await response.json()], lines 75-106 and 164-199. *)
Definition after_json (t : Task) (h : Hook) (o : outcome json) : Step :=
  match o with
  | Rejected e => throw_ t h e
  | Resolved data =>
      match get "error" (Some data) with
      | None => throw_ t h TypeError
      | Some error =>
          if truthy error then throw_ t h Error
          else
            match
              (if truthy (Some data) then
                 match get "data" (Some data) with
                 | Some d =>
                     if truthy d then
                       match get "children" d with
                       | Some (Some (JArr children)) => Some (d, children)
                       | _ => None
                       end
                     else None
                 | None => None
                 end
               else None)
            with
            | None => return_ t h [] []
            | Some (d, children) =>
                let filteredItems := filterPlayableSongs children in
                let parsedSongs := parse_items filteredItems in
                let redditAfter :=
                  match get "after" d with
                  | Some a => if truthy a then a else None
                  | None => None
                  end in
                return_ t h
                  [ (if truthy_str (after t) then addSongs parsedSongs
                     else setSongs parsedSongs);
                    setAfter redditAfter ]
                  parsedSongs
            end
      end
  end.

End Parser.

(** The effect of an action on the store. *)
Definition on_store (a : Action) (s : Store.State) : Store.State :=
  match a with
  | setLoading b => Store.setLoading b s
  | setSongs l => Store.setSongs l s
  | addSongs l => Store.addSongs l s
  | setAfter c => Store.setAfter c s
  | addMessage m => Store.addMessage m s
  end.

Definition run (acts : list Action) (s : Store.State) : Store.State :=
  foldl (fun s a => on_store a s) s acts.

End RedditMusic.

(** ** [useInitializeApp] *)

Module InitializeApp.

(** Strings are sequences of code units below 256; the few code points beyond
    that JavaScript treats as white space or as line terminators are not
    represented. *)

(** [s.split(sep)] for a one-character separator. *)
Fixpoint split (sep : ascii) (s : string) : list string :=
  match s with
  | EmptyString => [""]
  | String c s' =>
      if bool_decide (c = sep) then "" :: split sep s'
      else match split sep s' with
           | hd :: tl => String c hd :: tl
           | [] => [String c ""]
           end
  end.

(** White space and line terminators, as [trim] removes them. *)
Definition is_space (c : ascii) : bool :=
  let n := nat_of_ascii c in
  bool_decide (9 <= n <= 13) || bool_decide (n = 32) || bool_decide (n = 160).

Fixpoint trimStart (s : string) : string :=
  match s with
  | EmptyString => ""
  | String c s' => if is_space c then trimStart s' else s
  end.

Definition trim (s : string) : string :=
  String.rev (trimStart (String.rev (trimStart s))).

Definition lower (c : ascii) : ascii :=
  let n := nat_of_ascii c in
  if bool_decide (65 <= n <= 90)
     || bool_decide (192 <= n <= 214) || bool_decide (216 <= n <= 222)
  then ascii_of_nat (n + 32) else c.

Fixpoint toLowerCase (s : string) : string :=
  match s with
  | EmptyString => ""
  | String c s' => String (lower c) (toLowerCase s')
  end.

(** [.split("+").map((s) => s.trim().toLowerCase()).filter(Boolean)] *)
Definition parse_subs (s : string) : list string :=
  List.filter (fun x => negb (String.eqb x ""))
    (map (fun x => toLowerCase (trim x)) (split "+" s)).

Fixpoint no_line_terminator (s : string) : bool :=
  match s with
  | EmptyString => true
  | String c s' =>
      negb (bool_decide (nat_of_ascii c = 10) || bool_decide (nat_of_ascii c = 13))
      && no_line_terminator s'
  end.

(** [pathname.match(/^\/r\/(.+)$/)]: the first group, when the path
    matches. *)
Definition pathMatch (pathname : string) : option string :=
  match pathname with
  | String "/" (String "r" (String "/" rest)) =>
      if negb (String.eqb rest "") && no_line_terminator rest
      then Some rest else None
  | _ => None
  end.

(** What the effect reads: the path, [searchParams.get("r")] and the
    subreddits saved in the store. *)
Record Env := {
  pathname : string;
  rParam : option string;
  selectedSubreddits : list string
}.

Inductive Call :=
| setSelectedSubreddits (subs : list string)
| fetchFromSubreddits (subs : list string).

(** The subreddits a source names, when it names any. *)
Definition named (source : option string) : option (list string) :=
  match source with
  | Some s =>
      let subs := parse_subs s in
      if bool_decide (0 < length subs) then Some subs else None
  | None => None
  end.

(** The mount effect, lines 271-316 of [part_001]: the new value of
    [hasInitialized.current] and the calls made. *)
Definition initialize (hasInitialized : bool) (e : Env) : bool * list Call :=
  if hasInitialized then (true, [])
  else
    match named (pathMatch (pathname e)) with
    | Some subs => (true, [setSelectedSubreddits subs; fetchFromSubreddits subs])
    | None =>
        match named (if truthy_str (rParam e) then rParam e else None) with
        | Some subs =>
            (true, [setSelectedSubreddits subs; fetchFromSubreddits subs])
        | None =>
            if bool_decide (0 < length (selectedSubreddits e)) then
              (true, [fetchFromSubreddits (selectedSubreddits e)])
            else
              let defaultSubs := ["listentothis"] in
              (true, [setSelectedSubreddits defaultSubs;
                      fetchFromSubreddits defaultSubs])
        end
    end.

End InitializeApp.

(** ** The listing proxy, [GET /api/get/*] *)

Module Proxy.

(** An upstream response: its status and how reading its body settles.  The
    timer is cleared before the body is read (line 174); a body that never
    settles is not modelled. *)
Record Response := {
  status : Z;
  text : outcome string;
  json_ : outcome json
}.

(** [response.ok] *)
Definition ok (r : Response) : bool :=
  bool_decide (200 <= status r <= 299)%Z.

(** One call of [fetch(redditUrl)]: how long the upstream takes to settle it,
    in milliseconds ([None]: it never does), and how. *)
Record Attempt := {
  latency : option N;
  result : outcome Response
}.

(** [setTimeout(() => controller.abort(), 30000)] *)
Definition timeout : N := 30000.

(** [fetch(redditUrl, { signal: controller.signal })] started [now]
    milliseconds after the timer was set: the time at which the promise
    settles and its outcome.  Once the timer has fired the signal stays
    aborted. *)
Definition fetch (now : N) (a : Attempt) : N * outcome Response :=
  if (timeout <=? now)%N then (now, Rejected AbortError)
  else
    match latency a with
    | Some d =>
        if (now + d <? timeout)%N then ((now + d)%N, result a)
        else (timeout, Rejected AbortError)
    | None => (timeout, Rejected AbortError)
    end.

(** The variables of the retry loop, the time elapsed since the timer was
    set, and the waits and fetches made so far. *)
Record Loop := {
  response : option Response;
  lastError : option error;
  now : N;
  waits : list N;
  fetches : nat
}.

Inductive Exit :=
| done (l : Loop)
| thrown (e : error) (l : Loop).

(** [await new Promise(resolve => setTimeout(resolve, attempt * 1000))] *)
Definition wait (attempt : nat) (l : Loop) : Loop :=
  if bool_decide (0 < attempt) then
    let ms := (N.of_nat attempt * 1000)%N in
    {| response := response l; lastError := lastError l;
       now := (now l + ms)%N; waits := waits l ++ [ms]; fetches := fetches l |}
  else l.

(** [for (let attempt = 0; attempt < 3; attempt++)], lines 122-168; [n] is the number of values of [attempt] left, [3 - attempt]. *)
Fixpoint retry (upstream : nat -> Attempt) (n attempt : nat) (l : Loop) : Exit :=
  match n with
  | 0 => done l
  | S n' =>
      let l := wait attempt l in
      let '(settled_at, o) := fetch (now l) (upstream attempt) in
      match o with
      | Resolved r =>
          let l := {| response := Some r; lastError := lastError l;
                      now := settled_at; waits := waits l;
                      fetches := S (fetches l) |} in
          if ok r then done l
          else if bool_decide (status r = 403)%Z && bool_decide (attempt < 2)
          then retry upstream n' (S attempt) l
          else done l
      | Rejected e =>
          let l := {| response := response l; lastError := Some e;
                      now := settled_at; waits := waits l;
                      fetches := S (fetches l) |} in
          if bool_decide (attempt = 2) then thrown e l
          else retry upstream n' (S attempt) l
      end
  end.

Definition start : Loop :=
  {| response := None; lastError := None; now := 0%N; waits := []; fetches := 0 |}.

(** The body of a reply. *)
Inductive Body :=
| no_body
| data (j : json)
| failure (error : string).

Record Reply := {
  reply_status : Z;
  body : Body
}.

(** [NextResponse.json(body, { status })].  It builds the reply with the
    platform's [Response] constructor, which throws a [RangeError] for a
    status outside 200..599 and a [TypeError] for a body together with a
    null-body status (in that range: 204, 205 and 304). *)
Definition NextResponse_json (b : Body) (status : Z) : outcome Reply :=
  if negb (bool_decide (200 <= status <= 599)%Z) then Rejected RangeError
  else if bool_decide (status = 204 \/ status = 205 \/ status = 304)%Z
  then Rejected TypeError
  else Resolved {| reply_status := status; body := b |}.

(** The [catch] branch, lines 218-263. *)
Definition catch_ (e : error) : Reply :=
  if String.eqb (name e) "AbortError" then
    {| reply_status := 504;
       body := failure "Request timeout - Reddit API took too long to respond" |}
  else if bool_decide (code e = Some "ENOTFOUND")
          || bool_decide (code e = Some "ECONNREFUSED") then
    {| reply_status := 503;
       body := failure "Network error - Could not reach Reddit API" |}
  else if isSyntaxError e then
    {| reply_status := 500;
       body := failure "Invalid JSON response from Reddit API" |}
  else
    {| reply_status := 500; body := failure "Internal server error" |}.

(** The in-memory cache: the data and the time it was stored, by URL. *)
Definition CACHE_TTL : Z := 60 * 1000.

(** [redditUrl], lines 86-96; [query] is
    [searchParams.toString()]. *)
Definition redditUrl (pathSegments : list string) (query : string) : string :=
  let redditPath := String.concat "/" pathSegments in
  let redditPath :=
    if String.prefix (String.rev ".json") (String.rev redditPath)
    then String.substring 0 (String.length redditPath - 5) redditPath
    else redditPath in
  "https://www.reddit.com/" +:+ redditPath +:+ ".json"
  +:+ (if negb (String.eqb query "") then "?" +:+ query else "").

(** A request and what surrounds it: the upstream's behaviour at each attempt,
    and [Date.now()] when the cache is read and when it is written. *)
Record Request := {
  method : string;
  pathSegments : list string;
  query : string;
  upstream : nat -> Attempt;
  read_at : Z;
  written_at : Z
}.

(** The part of the [try] block after the retry loop, lines 170-217, with the
    [catch] branch for what it throws. *)
Definition respond (cacheKey : string) (written_at : Z)
    (cache : gmap string (json * Z)) (x : Exit)
    : gmap string (json * Z) * Reply :=
  match x with
  | thrown e _ => (cache, catch_ e)
  | done l =>
      match response l with
      | None =>
          (cache, catch_ (match lastError l with Some e => e | None => Error end))
      | Some r =>
          if negb (ok r) then
            match text r with
            | Rejected e => (cache, catch_ e)
            | Resolved errorText =>
                match NextResponse_json (failure "Failed to fetch from Reddit API")
                        (status r) with
                | Resolved reply => (cache, reply)
                | Rejected e => (cache, catch_ e)
                end
            end
          else
            match json_ r with
            | Rejected e => (cache, catch_ e)
            | Resolved j =>
                if negb (truthy (Some j)) || negb (typeof_object (Some j)) then
                  (cache, {| reply_status := 500;
                             body := failure "Invalid response from Reddit API" |})
                else
                  (<[ cacheKey := (j, written_at) ]> cache,
                   {| reply_status := 200; body := data j |})
            end
      end
  end.

(** [GET], lines 71-264. *)
Definition GET (q : Request) (cache : gmap string (json * Z))
    : gmap string (json * Z) * Reply :=
  if String.eqb (method q) "OPTIONS" then
    (cache, {| reply_status := 200; body := no_body |})
  else
    let cacheKey := redditUrl (pathSegments q) (query q) in
    match cache !! cacheKey with
    | Some (cached, timestamp) =>
        if bool_decide (read_at q - timestamp < CACHE_TTL)%Z then
          (cache, {| reply_status := 200; body := data cached |})
        else
          respond cacheKey (written_at q) cache (retry (upstream q) 3 0 start)
    | None =>
        respond cacheKey (written_at q) cache (retry (upstream q) 3 0 start)
    end.

End Proxy.

(** ** [src/components/controls.tsx]: the volume slider and the seeking state *)

Module ControlsHandlers.

(** The click on the volume slider: [e.clientY] and the slider's bounding
    rectangle. *)
Record SliderClick := {
  clientY : number;
  rect_top : number;
  rect_height : number
}.

Section Numbers.
Context {R : Rounding}.

(** The click handler of the volume slider, lines 243-248: the argument of
    [handleVolumeChange], which passes it to the store's [setVolume]. *)
Definition volume_click (e : SliderClick) : number :=
  let y := sub (clientY e) (rect_top e) in
  let percentage := mul (div (sub (rect_height e) y) (rect_height e)) (lit 100) in
  Math_max (lit 0) (Math_min (lit 100) percentage).

(** The effect of lines 141-147: the new value of [seekingTime] when
    [currentTime] or [seekingTime] has changed. *)
Definition seeking_effect (currentTime : number) (seekingTime : option number)
    : option number :=
  match seekingTime with
  | None => None
  | Some t => if Controls.caught_up currentTime t then None else Some t
  end.

End Numbers.

End ControlsHandlers.

(** ** The SoundCloud player component: its effects *)

Module SoundCloudEffects.

Inductive Event :=
| READY
| PLAY_PROGRESS
| FINISHED.

(** What the effects do, in order: the calls of [SoundCloudPlayer.Call], and
    the steps only the effects take. *)
Inductive Step :=
| call (c : SoundCloudPlayer.Call)
| widget_pause
| reuse_widget
| append_script
| SC_Widget
| bind (event : Event).

(** What the mount effect finds: the globals on [window], whether
    [window.SC] is loaded, whether [iframeRef.current] is set, and the call
    of the reused widget that throws, if one does (counted from 0 among the
    calls of the [try] block). *)
Record Env := {
  window : SoundCloudPlayer.Window;
  SC : bool;
  iframe : bool;
  throws_at : option nat
}.

(** [initializePlayer], lines 69-124. *)
Definition initializePlayer (env : Env) : list Step :=
  if negb (iframe env) || negb (SC env) then []
  else [SC_Widget; bind READY; bind PLAY_PROGRESS; bind FINISHED].

Section Numbers.
Context {R : Rounding}.

(** The calls of the [try] block of the reuse branch, lines 39-47. *)
Definition reuse_calls (p : SoundCloudPlayer.Props) : list Step :=
  [call (SoundCloudPlayer.widget_setVolume (div (SoundCloudPlayer.volume p) (lit 100)))]
  ++ (if gt (SoundCloudPlayer.currentTime p) (lit 0)
      then [call (SoundCloudPlayer.widget_seekTo
                    (mul (SoundCloudPlayer.currentTime p) (lit 1000)))]
      else [])
  ++ [if SoundCloudPlayer.isPlaying p
      then call SoundCloudPlayer.widget_play else widget_pause].

(** The effect on [[song.url, currentTime]], lines 29-68. *)
Definition mount (p : SoundCloudPlayer.Props) (env : Env) : list Step :=
  if SoundCloudPlayer.__soundcloudWidget (window env)
     && bool_decide (SoundCloudPlayer.__soundcloudUrl (window env)
                     = Some (Store.url (SoundCloudPlayer.song p)))
  then
    [reuse_widget; call (SoundCloudPlayer.setIsReady true)]
    ++ match throws_at env with
       | Some k =>
           if bool_decide (k < length (reuse_calls p))
           then take k (reuse_calls p) ++ initializePlayer env
           else reuse_calls p
       | None => reuse_calls p
       end
  else if negb (SC env) then [append_script]
  else initializePlayer env.

(** [script.onload], lines 62-64. *)
Definition script_onload (env : Env) : list Step := initializePlayer env.

(** The effect on [[isPlaying, isReady]], lines 131-144; [widget] tells
    whether [widgetRef.current] is set. *)
Definition playing_effect (isReady widget isPlaying : bool) : list Step :=
  if negb isReady || negb widget then []
  else [if isPlaying then call SoundCloudPlayer.widget_play else widget_pause].

(** The effect on [[volume, isReady]], lines 146-155. *)
Definition volume_effect (isReady widget : bool) (volume : number) : list Step :=
  if negb isReady || negb widget then []
  else [call (SoundCloudPlayer.widget_setVolume (div volume (lit 100)))].

End Numbers.

End SoundCloudEffects.

(** ** [useInitializeApp]: the keyboard shortcuts *)

Module Shortcuts.

(** What [handleKeyDown] reads from the event. *)
Record KeyEvent := {
  tagName : string;
  isContentEditable : bool;
  code : string;
  ctrlKey : bool;
  metaKey : bool
}.

Inductive Call :=
| preventDefault
| togglePlay
| previous
| next
| setVolume (v : number).

Section Numbers.
Context {R : Rounding}.

(** [a + b] *)
Definition add (a b : number) : number :=
  match a, b with
  | NaN, _ | _, NaN => NaN
  | Fin x, Fin y => round (x + y)
  | PInf, NInf | NInf, PInf => NaN
  | PInf, _ | _, PInf => PInf
  | NInf, _ | _, NInf => NInf
  end.

(** [handleKeyDown], lines 322-363 of [part_001]; [volume] is the store's
    volume the handler closes over. *)
Definition handleKeyDown (volume : number) (e : KeyEvent) : list Call :=
  if String.eqb (tagName e) "INPUT" || String.eqb (tagName e) "TEXTAREA"
     || isContentEditable e
  then []
  else if String.eqb (code e) "Space" then [preventDefault; togglePlay]
  else if ctrlKey e || metaKey e then
    if String.eqb (code e) "ArrowLeft" then [preventDefault; previous]
    else if String.eqb (code e) "ArrowRight" then [preventDefault; next]
    else if String.eqb (code e) "ArrowUp" then
      [preventDefault; setVolume (Math_min (lit 100) (add volume (lit 10)))]
    else if String.eqb (code e) "ArrowDown" then
      [preventDefault; setVolume (Math_max (lit 0) (sub volume (lit 10)))]
    else []
  else [].

End Numbers.

End Shortcuts.

(** ** The comments route, [GET /api/comments] *)

Module Comments.

(** A request: [searchParams.get("permalink")], [searchParams.get("sort")]
    ([None] is [null]) and how the one [fetch] of the route settles. *)
Record Request := {
  permalink : option string;
  sort : option string;
  upstream : outcome Proxy.Response
}.

(** [redditUrl], lines 21-23 of [route.ts]. *)
Definition redditUrl (permalink : string) (sort : option string) : string :=
  let sort := if truthy_str sort then default "top" sort else "top" in
  "https://www.reddit.com" +:+ permalink +:+ ".json?sort=" +:+ sort.

(** [GET], lines 7-60 of [route.ts]: the URLs fetched and the reply. *)
Definition GET (q : Request) : list string * Proxy.Reply :=
  match permalink q with
  | Some p =>
      if negb (String.eqb p "") then
        ([redditUrl p (sort q)],
         match upstream q with
         | Rejected e =>
             {| Proxy.reply_status := 500;
                Proxy.body := Proxy.failure "Internal server error" |}
         | Resolved response =>
             if negb (Proxy.ok response) then
               match Proxy.NextResponse_json (Proxy.failure "Failed to fetch comments")
                       (Proxy.status response) with
               | Resolved reply => reply
               | Rejected e =>
                   {| Proxy.reply_status := 500;
                      Proxy.body := Proxy.failure "Internal server error" |}
               end
             else
               match Proxy.json_ response with
               | Rejected e =>
                   {| Proxy.reply_status := 500;
                      Proxy.body := Proxy.failure "Internal server error" |}
               | Resolved data =>
                   {| Proxy.reply_status := 200; Proxy.body := Proxy.data data |}
               end
         end)
      else
        ([], {| Proxy.reply_status := 400;
                Proxy.body := Proxy.failure "Missing permalink parameter" |})
  | None =>
      ([], {| Proxy.reply_status := 400;
              Proxy.body := Proxy.failure "Missing permalink parameter" |})
  end.

End Comments.

(* ===================================================================== *)
(** * Part II. The vocabulary of the statements                           *)
(* ===================================================================== *)

(** ** Playback *)

(** The duration is unknown: no song is loaded, or [duration] is 0, NaN or
    not finite. *)
Definition no_progress (v : Controls.View) : Prop :=
  Controls.currentSong v = None
  \/ eqb (Controls.duration v) (lit 0) = true
  \/ isNaN (Controls.duration v) = true
  \/ isFinite (Controls.duration v) = false.



(** ** Sample data *)

Definition song_a : Store.Song :=
  {| Store.id := "t3_a"; Store.title := "a"; Store.url := "https://youtu.be/a" |}.

Definition song_b : Store.Song :=
  {| Store.id := "t3_b"; Store.title := "b"; Store.url := "https://youtu.be/b" |}.

(** A store whose queue holds [song_a], which is current and paused. *)
Definition store_a : Store.State :=
  {| Store.playback :=
       {| Store.currentSong := Some song_a; Store.isPlaying := false;
          Store.currentTime := lit 0; Store.duration := lit 0;
          Store.volume := 100 |};
     Store.queue := {| Store.songs := [song_a]; Store.currentIndex := 0;
                       Store.after := Some (JStr "t3_a") |};
     Store.loading := false; Store.messages := [] |}.

(** ** The queue and the fetch hook *)

(** The number of entries of a queue that carry the id [i]. *)
Definition count_id (i : string) (q : list Store.Song) : nat :=
  length (List.filter (fun s => String.eqb (Store.id s) i) q).

(** Arrivals at which a call is resumed after it has been cancelled: the
    head of the response of its [fetch], or the [AbortError] with which an
    aborted [fetch] or an aborted read of the body rejects.  A body that is
    still delivered is not among them. *)
Inductive resumed_cancelled (filterPlayableSongs : list json -> list json)
    (parseSong : value -> option Store.Song)
    (t : RedditMusic.Task) (h : RedditMusic.Hook) : RedditMusic.Step -> Prop :=
| response_arrives (r : RedditMusic.Response) :
    resumed_cancelled filterPlayableSongs parseSong t h
      (RedditMusic.after_fetch t h (Resolved r))
| fetch_aborted (e : error) :
    name e = "AbortError" ->
    resumed_cancelled filterPlayableSongs parseSong t h
      (RedditMusic.after_fetch t h (Rejected e))
| text_aborted (e : error) :
    name e = "AbortError" ->
    resumed_cancelled filterPlayableSongs parseSong t h
      (RedditMusic.after_text t h (Rejected e))
| json_aborted (e : error) :
    name e = "AbortError" ->
    resumed_cancelled filterPlayableSongs parseSong t h
      (RedditMusic.after_json filterPlayableSongs parseSong t h (Rejected e)).


(** ** The proxy *)

(** The loop variables at the end of the retry loop. *)
Definition loop_of (x : Proxy.Exit) : Proxy.Loop :=
  match x with
  | Proxy.done l | Proxy.thrown _ l => l
  end.

(** The wait before attempt [i], in milliseconds. *)
Definition backoff (i : nat) : N := (N.of_nat i * 1000)%N.

(** The waits made before the attempts [a], ..., [a + m - 1]. *)
Definition backoffs (a m : nat) : list N :=
  flat_map (fun i => if bool_decide (0 < i) then [backoff i] else []) (seq a m).

Definition total (l : list N) : N := foldr N.add 0%N l.

(** The time the upstream takes to answer an attempt; an attempt it never
    answers lasts until the timer fires. *)
Definition delay (a : Proxy.Attempt) : N :=
  match Proxy.latency a with
  | Some d => d
  | None => Proxy.timeout
  end.

(** The time at which the answer to attempt [k] arrives when every earlier
    attempt was answered and retried. *)
Fixpoint arrival (upstream : nat -> Proxy.Attempt) (k : nat) : N :=
  match k with
  | 0 => delay (upstream 0)
  | S k' => (arrival upstream k' + backoff k + delay (upstream k))%N
  end.

(** The request reaches the upstream: it is not a preflight and the cache
    holds no fresh entry for its URL. *)
Definition miss (q : Proxy.Request) (cache : gmap string (json * Z)) : Prop :=
  Proxy.method q <> "OPTIONS"
  /\ match cache !! Proxy.redditUrl (Proxy.pathSegments q) (Proxy.query q) with
     | Some (_, timestamp) => (Proxy.CACHE_TTL <= Proxy.read_at q - timestamp)%Z
     | None => True
     end.

(** The payload is one the proxy passes on: [data && typeof data === 'object']. *)
Definition passable (j : json) : bool :=
  truthy (Some j) && typeof_object (Some j).

(** The statuses a reply with a body can carry. *)
Definition carries_body (status : Z) : Prop :=
  (200 <= status <= 599)%Z
  /\ status <> 204%Z /\ status <> 205%Z /\ status <> 304%Z.

(** What [fetch] rejects with when no connection is made, the connection
    being refused ([ECONNREFUSED]) or the host name unknown ([ENOTFOUND]): a
    [TypeError] that has the system error, with its code, as its [cause].
    The error itself has no [code], and the proxy never reads [cause]. *)
Definition fetch_failed (cause_code : string) : error :=
  {| name := "TypeError"; code := None; isSyntaxError := false |}.

(** A request for [/r/listentothis/hot.json] while the upstream cannot be
    reached: every attempt fails after 3 ms. *)
Definition request_unreachable (cause_code : string) : Proxy.Request :=
  {| Proxy.method := "GET";
     Proxy.pathSegments := ["r"; "listentothis"; "hot.json"];
     Proxy.query := "limit=100";
     Proxy.upstream := fun _ =>
       {| Proxy.latency := Some 3%N;
          Proxy.result := Rejected (fetch_failed cause_code) |};
     Proxy.read_at := 0;
     Proxy.written_at := 4000 |}.

(** Sample upstream responses. *)
Definition forbidden : Proxy.Response :=
  {| Proxy.status := 403; Proxy.text := Resolved "Blocked";
     Proxy.json_ := Rejected SyntaxError |}.

Definition listing : Proxy.Response :=
  {| Proxy.status := 200; Proxy.text := Resolved "{}";
     Proxy.json_ := Resolved (JObj ∅) |}.

(** A request for [/r/listentothis/hot.json] to an upstream that answers each
    attempt after 200 ms: with a 403 the first [n] times, then with the
    listing. *)
Definition request_after_403s (n : nat) : Proxy.Request :=
  {| Proxy.method := "GET";
     Proxy.pathSegments := ["r"; "listentothis"; "hot.json"];
     Proxy.query := "limit=100";
     Proxy.upstream := fun k =>
       {| Proxy.latency := Some 200%N;
          Proxy.result := Resolved (if bool_decide (k < n) then forbidden else listing) |};
     Proxy.read_at := 0;
     Proxy.written_at := 1000 |}.

(** ** The further properties *)


(** A step that makes or binds a widget, or loads the script. *)
Definition initializes (s : SoundCloudEffects.Step) : bool :=
  match s with
  | SoundCloudEffects.append_script | SoundCloudEffects.SC_Widget
  | SoundCloudEffects.bind _ => true
  | _ => false
  end.

(** A step that commands the widget. *)
Definition commands_widget (s : SoundCloudEffects.Step) : bool :=
  match s with
  | SoundCloudEffects.widget_pause
  | SoundCloudEffects.call (SoundCloudPlayer.widget_setVolume _)
  | SoundCloudEffects.call (SoundCloudPlayer.widget_seekTo _)
  | SoundCloudEffects.call SoundCloudPlayer.widget_play
  | SoundCloudEffects.call SoundCloudPlayer.widget_getDuration => true
  | _ => false
  end.

(** The hook once a live call has settled: no request is in flight. *)
Definition settled_hook (h : RedditMusic.Hook) : RedditMusic.Hook :=
  {| RedditMusic.abortControllerRef := None;
     RedditMusic.aborted := RedditMusic.aborted h;
     RedditMusic.fresh := RedditMusic.fresh h |}.

(** A call resumed at one of its awaiting points, whatever arrives. *)
Inductive resumed (filterPlayableSongs : list json -> list json)
    (parseSong : value -> option Store.Song)
    (t : RedditMusic.Task) (h : RedditMusic.Hook) : RedditMusic.Step -> Prop :=
| resumed_fetch (o : outcome RedditMusic.Response) :
    resumed filterPlayableSongs parseSong t h (RedditMusic.after_fetch t h o)
| resumed_text (o : outcome string) :
    resumed filterPlayableSongs parseSong t h (RedditMusic.after_text t h o)
| resumed_json (o : outcome json) :
    resumed filterPlayableSongs parseSong t h
      (RedditMusic.after_json filterPlayableSongs parseSong t h o).

(** The controllers of a hook are older than the next one it will make. *)
Definition hook_ok (h : RedditMusic.Hook) : Prop :=
  (forall c, c ∈ RedditMusic.aborted h -> c < RedditMusic.fresh h)
  /\ (forall c, RedditMusic.abortControllerRef h = Some c -> c < RedditMusic.fresh h).

(** The fetches of a list started one after the other, none being resumed in
    between: the hook at the end and the calls started, in order. *)
Fixpoint start_all (v : RedditMusic.StoreView)
    (calls : list (RedditMusic.Target * option string)) (h : RedditMusic.Hook)
    : RedditMusic.Hook * list RedditMusic.Task :=
  match calls with
  | [] => (h, [])
  | (t, after) :: rest =>
      let st := RedditMusic.start v t after h in
      let '(h', ts) := start_all v rest (RedditMusic.started_hook st) in
      (h', RedditMusic.task st :: ts)
  end.

(** The first and the last character of a string. *)
Definition first_char (s : string) : option ascii :=
  match s with
  | EmptyString => None
  | String c _ => Some c
  end.

Fixpoint last_char (s : string) : option ascii :=
  match s with
  | EmptyString => None
  | String c s' => match last_char s' with Some d => Some d | None => Some c end
  end.

(** The character, if there is one, is not white space. *)
Definition not_space (c : option ascii) : Prop :=
  match c with
  | Some c => InitializeApp.is_space c = false
  | None => True
  end.

(** The subreddit lists a trace fetches. *)
Definition fetched (calls : list InitializeApp.Call) : list (list string) :=
  omap (fun c => match c with
                 | InitializeApp.fetchFromSubreddits subs => Some subs
                 | _ => None
                 end) calls.

(** The path ends in [".json"]. *)
Definition ends_in_json (path : string) : bool :=
  String.prefix (String.rev ".json") (String.rev path).

(** An attempt the loop makes up for: it answers 403 or throws. *)
Definition retried (a : Proxy.Attempt) : Prop :=
  (exists r, Proxy.result a = Resolved r /\ Proxy.status r = 403%Z)
  \/ (exists e, Proxy.result a = Rejected e).

(** An upstream that cannot be reached at first and then answers with the
    listing. *)
Definition request_after_errors (n : nat) : Proxy.Request :=
  {| Proxy.method := "GET";
     Proxy.pathSegments := ["r"; "listentothis"; "hot.json"];
     Proxy.query := "limit=100";
     Proxy.upstream := fun k =>
       {| Proxy.latency := Some 200%N;
          Proxy.result :=
            if bool_decide (k < n)
            then Rejected {| name := "TypeError"; code := Some "ECONNRESET";
                             isSyntaxError := false |}
            else Resolved listing |};
     Proxy.read_at := 0;
     Proxy.written_at := 1000 |}.


(* ===================================================================== *)
(** * Part III. Theorems                                                  *)
(* ===================================================================== *)

(** ** Numbers *)

Section NumberFacts.
Context {R : Rounding}.

Lemma Qeq_bool_false (x y : Q) : ~ (x == y)%Q -> Qeq_bool x y = false.
Proof.
  intros H. apply not_true_iff_false. intros E.
  apply Qeq_bool_iff in E. contradiction.
Qed.

Lemma mul_fin_not_nan (a : number) (q : Q) :
  a <> NaN -> ~ (q == 0)%Q -> mul a (Fin q) <> NaN.
Proof.
  intros Ha Hq. destruct a as [| | |x]; simpl; try congruence.
  - rewrite (Qeq_bool_false _ _ Hq). destruct (Qle_bool 0 q); discriminate.
  - rewrite (Qeq_bool_false _ _ Hq). destruct (Qle_bool 0 q); discriminate.
  - apply round_not_nan.
Qed.

Lemma div_fin_not_nan (x y : Q) :
  ~ (y == 0)%Q -> div (Fin x) (Fin y) <> NaN.
Proof.
  intros Hy. simpl. rewrite (Qeq_bool_false _ _ Hy). apply round_not_nan.
Qed.

(** [Math.max(0, Math.min(100, c))] is a finite number between 0 and 100
    unless [c] is NaN. *)
Lemma clamp_percentage (c : number) :
  c <> NaN ->
  exists q, Math_max (lit 0) (Math_min (lit 100) c) = Fin q /\ (0 <= q <= 100)%Q.
Proof.
  intros Hc. destruct c as [| | |x]; [congruence| | |]; simpl.
  - exists (inject_Z 100). split; [reflexivity|]. split; discriminate.
  - exists (inject_Z 0). split; [reflexivity|]. split; discriminate.
  - destruct (Qle_bool (inject_Z 100) x) eqn:E100; simpl.
    + exists (inject_Z 100). split; [reflexivity|]. split; discriminate.
    + destruct (Qle_bool x (inject_Z 0)) eqn:E0; simpl.
      * exists (inject_Z 0). split; [reflexivity|]. split; discriminate.
      * exists x. split; [reflexivity|].
        apply not_true_iff_false in E100, E0.
        rewrite Qle_bool_iff in E100, E0.
        apply Qnot_le_lt in E100, E0.
        split; apply Qlt_le_weak; assumption.
Qed.

End NumberFacts.

(** ** The progress bar *)

(** C6.  Whatever [currentTime] and [seekingTime] are (NaN, negative or
    infinite included), the progress percentage is exactly 0 when no song is
    loaded or the duration is 0, NaN or not finite; and for every input it is
    a finite number between 0 and 100. *)
Theorem displayPercentage_zero_or_in_range `{R : Rounding} (v : Controls.View) :
  (no_progress v -> Controls.displayPercentage v = lit 0)
  /\ (exists q, Controls.displayPercentage v = Fin q /\ (0 <= q <= 100)%Q).
Proof.
  unfold no_progress, Controls.displayPercentage.
  assert (Hzero : exists q, lit 0 = Fin q /\ (0 <= q <= 100)%Q).
  { exists (inject_Z 0). repeat split; discriminate. }
  destruct (Controls.currentSong v) as [s|]; [|split; [reflexivity|exact Hzero]].
  destruct (Controls.duration v) as [| | |d];
    destruct (Controls.displayTime v) as [| | |t];
    cbn [bool_decide decide_rel is_Some isNaN isFinite negb andb];
    rewrite ?andb_false_r, ?andb_true_r;
    try (split; [reflexivity|exact Hzero]).
  all: unfold gt, lt; cbn [lit];
    destruct (Qle_bool d (inject_Z 0)) eqn:Hd;
    rewrite ?bool_decide_eq_true_2 by (eexists; reflexivity);
    cbn [negb andb]; try (split; [reflexivity|exact Hzero]).
  all: try (split; [|exact Hzero];
            intros [H|[H|[H|H]]]; try discriminate; reflexivity).
  assert (Hpos : ~ (d == 0)%Q).
  { intros E. apply not_true_iff_false in Hd. apply Hd.
    apply Qle_bool_iff. rewrite E. discriminate. }
  split.
  - intros [H|[H|[H|H]]]; try discriminate.
    apply Qeq_bool_iff in H. contradiction.
  - apply clamp_percentage. apply mul_fin_not_nan.
    + apply div_fin_not_nan. exact Hpos.
    + discriminate.
Qed.

(** The theorem at a NaN duration and an infinite [currentTime], with exact
    arithmetic. *)
Lemma displayPercentage_zero_or_in_range_witness :
  Controls.displayPercentage (R := exact)
    {| Controls.isPlaying := true; Controls.currentTime := PInf;
       Controls.duration := NaN;
       Controls.currentSong := Some {| Store.id := "t3_a"; Store.title := "a";
                                       Store.url := "https://example.org/a.mp3" |};
       Controls.seekingTime := None |} = lit 0.
Proof.
  apply (displayPercentage_zero_or_in_range (R := exact)).
  right. right. left. reflexivity.
Defined.

(** ** Seeking *)

Ltac list_membership :=
  repeat (rewrite elem_of_app || rewrite elem_of_cons || rewrite elem_of_nil).

Section SeekFacts.
Context {R : Rounding}.

(** A seek never touches the store's [isPlaying]: the only store action of
    [handleSeek] is [seekTo]. *)
Lemma handleSeek_store_actions (v : Controls.View) (e : Controls.Click)
    (w : Controls.Window) (c : Controls.Command) :
  c ∈ Controls.handleSeek v e w ->
  c = Controls.seekTo (Controls.newTime v e)
  \/ (forall t, c <> Controls.seekTo t).
Proof.
  unfold Controls.handleSeek.
  destruct (eqb _ _); [intros H; inversion H|].
  destruct (Controls.YT w), (Controls.__youtubePlayer w) as [st|],
    (Controls.__vimeoPlayer w), (Controls.__mp3AudioRef w) as [[]|],
    (Controls.__soundcloudWidget w), (Controls.isPlaying v);
    cbn [andb app]; try destruct (negb _); cbn [app];
    list_membership;
    intros H; decompose [or] H; subst; auto;
    try (right; intros; discriminate); try contradiction.
Qed.



End SeekFacts.

(** C2 (the code at its failing input).  A song of 120 s is playing from
    SoundCloud and the user clicks the middle of the bar: the seek target is
    60 s.  The widget answers [getDuration] with 120000 (milliseconds), and
    the callback seeks the widget to [(60 / 120000) * 1000], half a
    millisecond; the time the [PLAY_PROGRESS] handler then reports is not
    within 0.5 s of the target. *)
Theorem handleSeek_soundcloud_misses_target :
  let song := {| Store.id := "t3_a"; Store.title := "a";
                 Store.url := "https://soundcloud.com/a/b" |} in
  let v := {| Controls.isPlaying := true; Controls.currentTime := lit 0;
              Controls.duration := lit 120; Controls.currentSong := Some song;
              Controls.seekingTime := None |} in
  let e := {| Controls.clientX := lit 50; Controls.rect_left := lit 0;
              Controls.rect_width := lit 100 |} in
  let w := {| Controls.YT := false; Controls.__youtubePlayer := None;
              Controls.__vimeoPlayer := false; Controls.__mp3AudioRef := None;
              Controls.__soundcloudWidget := true |} in
  let p := {| SoundCloudPlayer.song := song; SoundCloudPlayer.volume := lit 100;
              SoundCloudPlayer.isPlaying := true;
              SoundCloudPlayer.currentTime := lit 0 |} in
  let sc := {| SoundCloudPlayer.__soundcloudWidget := true;
               SoundCloudPlayer.__soundcloudUrl := Some (Store.url song) |} in
  let target := Controls.newTime (R := exact) v e in
  eqb target (lit 60) = true
  /\ Controls.soundcloud_getDuration ∈ Controls.handleSeek (R := exact) v e w
  /\ exists ms t,
       Controls.soundcloud_duration (R := exact) target true (lit 120000)
       = [Controls.soundcloud_seekTo ms; Controls.soundcloud_play]
       /\ eqb ms (Fin (1 # 2)) = true
       /\ fst (SoundCloudPlayer.PLAY_PROGRESS (R := exact) p sc ms)
          = [SoundCloudPlayer.onTimeUpdate t; SoundCloudPlayer.widget_getDuration]
       /\ Controls.caught_up (R := exact) t target = false.
Proof.
  cbv zeta. split; [vm_compute; reflexivity|]. split.
  - apply list_elem_of_In. vm_compute. auto 10.
  - eexists _, _. split; [reflexivity|]. split; [vm_compute; reflexivity|].
    split; [vm_compute; reflexivity|]. vm_compute. reflexivity.
Qed.

(** ** The SoundCloud handlers *)

(** The guard of [PLAY_PROGRESS]: when the URL on [window] is not the URL of
    the song the handler closes over, the handler does nothing. *)
Lemma PLAY_PROGRESS_stale `{R : Rounding} (p : SoundCloudPlayer.Props)
    (w : SoundCloudPlayer.Window) (currentPosition : number) :
  SoundCloudPlayer.__soundcloudUrl w <> Some (Store.url (SoundCloudPlayer.song p)) ->
  SoundCloudPlayer.PLAY_PROGRESS p w currentPosition = ([], None).
Proof.
  intros H. unfold SoundCloudPlayer.PLAY_PROGRESS.
  rewrite bool_decide_eq_false_2 by exact H. reflexivity.
Qed.

(** The time and duration the handlers report are finite and not negative;
    other values are dropped. *)
Lemma PLAY_PROGRESS_reports_finite `{R : Rounding} (p : SoundCloudPlayer.Props)
    (w : SoundCloudPlayer.Window) (currentPosition t : number) :
  SoundCloudPlayer.onTimeUpdate t ∈ fst (SoundCloudPlayer.PLAY_PROGRESS p w currentPosition) ->
  exists q, t = Fin q /\ (0 <= q)%Q.
Proof.
  unfold SoundCloudPlayer.PLAY_PROGRESS.
  destruct (bool_decide _); [|intros H; inversion H].
  cbn [fst].
  destruct (ge _ _ && isFinite _) eqn:E.
  - rewrite elem_of_app, !elem_of_cons, !elem_of_nil.
    intros [[H|[]]|[H|[]]]; [|discriminate].
    injection H as ->. apply andb_prop in E as [Hge Hfin].
    destruct (div currentPosition (lit 1000)) as [| | |q]; try discriminate.
    exists q. split; [reflexivity|].
    unfold ge, lt in Hge. cbn in Hge.
    apply negb_true_iff, negb_false_iff in Hge.
    apply Qle_bool_iff in Hge. exact Hge.
  - rewrite elem_of_app, !elem_of_cons, !elem_of_nil.
    intros [[]|[H|[]]]. discriminate.
Qed.

(** C1 (the code at its failing input).  The queue holds three SoundCloud
    songs and the second is current; [window.__soundcloudUrl] is its URL.  A
    handler bound to the first song is stale: its [PLAY_PROGRESS] handler
    does nothing, but its [FINISHED] handler reports [isPlaying = false] and
    calls [store.forward()], which moves [currentIndex] from 1 to 2 and
    replaces [currentSong]; and a [getDuration] callback made while the first
    song was current still reports a duration. *)
Theorem FINISHED_of_stale_song_changes_store :
  let x := {| Store.id := "t3_x"; Store.title := "x";
              Store.url := "https://soundcloud.com/u/x" |} in
  let y := {| Store.id := "t3_y"; Store.title := "y";
              Store.url := "https://soundcloud.com/u/y" |} in
  let z := {| Store.id := "t3_z"; Store.title := "z";
              Store.url := "https://soundcloud.com/u/z" |} in
  let s := {| Store.playback :=
                {| Store.currentSong := Some y; Store.isPlaying := true;
                   Store.currentTime := lit 12; Store.duration := lit 200;
                   Store.volume := 100 |};
              Store.queue := {| Store.songs := [x; y; z]; Store.currentIndex := 1;
                                Store.after := None |};
              Store.loading := false; Store.messages := [] |} in
  let p := {| SoundCloudPlayer.song := x; SoundCloudPlayer.volume := lit 100;
              SoundCloudPlayer.isPlaying := true;
              SoundCloudPlayer.currentTime := lit 0 |} in
  let w := {| SoundCloudPlayer.__soundcloudWidget := true;
              SoundCloudPlayer.__soundcloudUrl := Some (Store.url y) |} in
  let calls := SoundCloudPlayer.FINISHED (SoundCloudPlayer.view s) in
  let s' := foldl (fun s c => SoundCloudPlayer.on_store c s) s calls in
  SoundCloudPlayer.PLAY_PROGRESS (R := exact) p w (lit 5000) = ([], None)
  /\ calls = [SoundCloudPlayer.onStateChange false; SoundCloudPlayer.store_forward]
  /\ Store.currentIndex (Store.queue s') = 2%Z
  /\ Store.currentSong (Store.playback s') = Some z
  /\ s' <> s
  /\ SoundCloudPlayer.PLAY_PROGRESS_duration (R := exact) p (Some (Store.url x))
       (lit 180000) <> [].
Proof.
  cbv zeta. repeat split; try reflexivity; vm_compute; discriminate.
Qed.



(** ** The queue *)

Lemma has_id_app (q1 q2 : list Store.Song) (i : string) :
  Store.has_id (q1 ++ q2) i = Store.has_id q1 i || Store.has_id q2 i.
Proof. unfold Store.has_id. apply existsb_app. Qed.

Lemma has_id_elem (q : list Store.Song) (x : Store.Song) :
  x ∈ q -> Store.has_id q (Store.id x) = true.
Proof.
  intros H. unfold Store.has_id. apply existsb_exists.
  exists x. split; [apply list_elem_of_In, H | apply String.eqb_refl].
Qed.

Lemma count_id_app (i : string) (q1 q2 : list Store.Song) :
  count_id i (q1 ++ q2) = count_id i q1 + count_id i q2.
Proof. unfold count_id. rewrite List.filter_app, length_app. reflexivity. Qed.

(** Songs whose id is already present are all dropped by the filter of
    [addSongs]. *)
Lemma filter_known_nil (old page : list Store.Song) :
  (forall x, x ∈ page -> Store.has_id old (Store.id x) = true) ->
  List.filter (fun x => negb (Store.has_id old (Store.id x))) page = [].
Proof.
  induction page as [|x page IH]; intros H; [reflexivity|].
  cbn [List.filter]. rewrite (H x) by apply list_elem_of_here. cbn [negb].
  apply IH. intros y Hy. apply H. apply list_elem_of_further, Hy.
Qed.

Lemma count_id_filter_known (old page : list Store.Song) (i : string) :
  Store.has_id old i = true ->
  count_id i (List.filter (fun x => negb (Store.has_id old (Store.id x))) page) = 0.
Proof.
  intros Hi. unfold count_id. induction page as [|x page IH]; [reflexivity|].
  cbn [List.filter].
  destruct (Store.has_id old (Store.id x)) eqn:Hx; cbn [negb]; [exact IH|].
  cbn [List.filter].
  destruct (String.eqb_spec (Store.id x) i) as [E|E]; [|exact IH].
  rewrite E in Hx. congruence.
Qed.

(** C9.  Appending a page deduplicates against the ids already in the queue:
    an id of the batch that the queue already holds gets no further entry,
    and appending the same page a second time changes nothing. *)
Theorem addSongs_no_duplicate_and_idempotent (page : list Store.Song)
    (s : Store.State) :
  (forall x, x ∈ page ->
     Store.has_id (Store.songs (Store.queue s)) (Store.id x) = true ->
     count_id (Store.id x) (Store.songs (Store.queue (Store.addSongs page s)))
     = count_id (Store.id x) (Store.songs (Store.queue s)))
  /\ Store.addSongs page (Store.addSongs page s) = Store.addSongs page s.
Proof.
  split.
  - intros x _ Hx. unfold Store.addSongs. cbn [Store.queue Store.songs].
    rewrite count_id_app, count_id_filter_known by exact Hx. lia.
  - unfold Store.addSongs.
    cbn [Store.queue Store.songs Store.playback Store.currentIndex Store.after
         Store.loading Store.messages].
    set (old := Store.songs (Store.queue s)).
    set (added := List.filter (fun x => negb (Store.has_id old (Store.id x))) page).
    rewrite (filter_known_nil (old ++ added) page).
    + rewrite app_nil_r. reflexivity.
    + intros x Hx. rewrite has_id_app.
      destruct (Store.has_id old (Store.id x)) eqn:E; [reflexivity|].
      cbn [orb]. apply has_id_elem. apply list_elem_of_In, filter_In.
      split; [apply list_elem_of_In, Hx|]. rewrite E. reflexivity.
Qed.

(** The theorem on a queue of one song and a page that repeats it. *)
Lemma addSongs_no_duplicate_and_idempotent_witness :
  count_id "t3_a"
    (Store.songs (Store.queue (Store.addSongs [song_a; song_b] store_a)))
  = count_id "t3_a" (Store.songs (Store.queue store_a)).
Proof.
  apply (proj1 (addSongs_no_duplicate_and_idempotent [song_a; song_b] store_a) song_a).
  - apply list_elem_of_here.
  - reflexivity.
Defined.

(** ** The feed fetch hook *)

Section FetchFacts.
Variable filterPlayableSongs : list json -> list json.
Variable parseSong : value -> option Store.Song.

(** Starting a fetch aborts the controller of the fetch in flight. *)
Lemma start_aborts_ongoing (v : RedditMusic.StoreView) (t : RedditMusic.Target)
    (after : option string) (h : RedditMusic.Hook) (c : nat) :
  RedditMusic.abortControllerRef h = Some c ->
  c ∈ RedditMusic.aborted (RedditMusic.started_hook (RedditMusic.start v t after h)).
Proof.
  intros H. unfold RedditMusic.start, RedditMusic.abort_ongoing. rewrite H.
  cbn. set_solver.
Qed.

(** A started fetch is the one in flight, and its controller is new. *)
Lemma start_registers (v : RedditMusic.StoreView) (t : RedditMusic.Target)
    (after : option string) (h : RedditMusic.Hook) :
  let st := RedditMusic.start v t after h in
  RedditMusic.abortControllerRef (RedditMusic.started_hook st)
  = Some (RedditMusic.abortController (RedditMusic.task st))
  /\ RedditMusic.abortController (RedditMusic.task st) = RedditMusic.fresh h
  /\ RedditMusic.signal (RedditMusic.request st)
     = RedditMusic.abortController (RedditMusic.task st).
Proof.
  unfold RedditMusic.start, RedditMusic.abort_ongoing.
  destruct (RedditMusic.abortControllerRef h); cbn; auto.
Qed.

(** No step of the hook clears an aborted signal. *)
Lemma start_keeps_aborted (v : RedditMusic.StoreView) (t : RedditMusic.Target)
    (after : option string) (h : RedditMusic.Hook) :
  RedditMusic.aborted h
  ⊆ RedditMusic.aborted (RedditMusic.started_hook (RedditMusic.start v t after h)).
Proof.
  unfold RedditMusic.start, RedditMusic.abort_ongoing.
  destruct (RedditMusic.abortControllerRef h); cbn; set_solver.
Qed.

Lemma finally_keeps_aborted (t : RedditMusic.Task) (h : RedditMusic.Hook) :
  RedditMusic.aborted (fst (RedditMusic.finally_ t h)) = RedditMusic.aborted h.
Proof. unfold RedditMusic.finally_. destruct (bool_decide _); reflexivity. Qed.

Lemma finally_aborted (t : RedditMusic.Task) (h : RedditMusic.Hook) :
  RedditMusic.abortController t ∈ RedditMusic.aborted h ->
  RedditMusic.finally_ t h = (h, []).
Proof.
  intros H. unfold RedditMusic.finally_.
  rewrite bool_decide_eq_true_2 by exact H. reflexivity.
Qed.

Lemma finally_live (t : RedditMusic.Task) (h : RedditMusic.Hook) :
  RedditMusic.abortController t ∉ RedditMusic.aborted h ->
  RedditMusic.finally_ t h
  = ({| RedditMusic.abortControllerRef := None;
        RedditMusic.aborted := RedditMusic.aborted h;
        RedditMusic.fresh := RedditMusic.fresh h |},
     [RedditMusic.setLoading false]).
Proof.
  intros H. unfold RedditMusic.finally_.
  rewrite bool_decide_eq_false_2 by exact H. reflexivity.
Qed.

(** An [AbortError] ends an aborted call silently. *)
Lemma throw_AbortError_aborted (t : RedditMusic.Task) (h : RedditMusic.Hook)
    (e : error) :
  name e = "AbortError" ->
  RedditMusic.abortController t ∈ RedditMusic.aborted h ->
  RedditMusic.throw_ t h e
  = {| RedditMusic.hook := h; RedditMusic.actions := [];
       RedditMusic.next := RedditMusic.settled (RedditMusic.returned []) |}.
Proof.
  intros He Ha. unfold RedditMusic.throw_, RedditMusic.catch_.
  rewrite He, finally_aborted by exact Ha. reflexivity.
Qed.


End FetchFacts.

(** The continuation of [await response.json()] makes no test of the
    signal: a superseded call that receives a well-formed listing applies
    it. *)
Lemma after_json_superseded
    (filterPlayableSongs : list json -> list json)
    (parseSong : value -> option Store.Song)
    (t : RedditMusic.Task) (h : RedditMusic.Hook)
    (o d : gmap string json) (children : list json) :
  RedditMusic.abortController t ∈ RedditMusic.aborted h ->
  truthy (o !! "error") = false ->
  o !! "data" = Some (JObj d) ->
  d !! "children" = Some (JArr children) ->
  let parsed := RedditMusic.parse_items parseSong (filterPlayableSongs children) in
  RedditMusic.after_json filterPlayableSongs parseSong t h (Resolved (JObj o))
  = {| RedditMusic.hook := h;
       RedditMusic.actions :=
         [ (if truthy_str (RedditMusic.after t)
            then RedditMusic.addSongs parsed else RedditMusic.setSongs parsed);
           RedditMusic.setAfter (if truthy (d !! "after") then d !! "after" else None) ];
       RedditMusic.next := RedditMusic.settled (RedditMusic.returned parsed) |}.
Proof.
  intros Ha Herr Hdata Hch parsed.
  unfold RedditMusic.after_json. cbn [get]. rewrite Herr, Hdata. cbn [truthy get].
  rewrite Hch. unfold RedditMusic.return_.
  rewrite finally_aborted by exact Ha. rewrite app_nil_r. reflexivity.
Qed.

(** C3 (the code at its failing input).  A subreddit fetch A has received
    the head of its response, which is ok, and awaits [response.json()] when
    a search B is started, which aborts A's controller.  The body of A then
    arrives, a listing of one song: A, which tests the signal after [await
    fetch] only, calls [setSongs] and [setAfter] with it, so that the queue
    and the cursor are replaced by those of the superseded fetch, and returns
    its songs.  Had A's response not been ok, the text of its body would make
    A add the error message and throw. *)
Theorem superseded_fetch_applies_late_body :
  let v := {| RedditMusic.selectedSubreddits := ["listentothis"];
              RedditMusic.sortMethod := "hot"; RedditMusic.topMethod := "week";
              RedditMusic.searchQuery := "" |} in
  let h0 := {| RedditMusic.abortControllerRef := None;
               RedditMusic.aborted := ∅; RedditMusic.fresh := 0 |} in
  let parseSong := fun x : value =>
    match x with Some (JStr "b") => Some song_b | _ => None end in
  let item := fun s : string => JObj (<[ "data" := JStr s ]> ∅) in
  let d := <[ "children" := JArr [item "b"] ]> (<[ "after" := JStr "t3_b" ]> ∅) in
  let A := RedditMusic.fetchMusicForSubreddits v ["listentothis"] None h0 in
  let head := RedditMusic.after_fetch (RedditMusic.task A) (RedditMusic.started_hook A)
                (Resolved {| RedditMusic.ok := true; RedditMusic.status := 200 |}) in
  let B := RedditMusic.fetchSearch v "jazz" None (RedditMusic.hook head) in
  let late := RedditMusic.after_json (fun l => l) parseSong (RedditMusic.task A)
                (RedditMusic.started_hook B)
                (Resolved (JObj (<[ "data" := JObj d ]> ∅))) in
  let failed := RedditMusic.after_text (RedditMusic.task A)
                  (RedditMusic.started_hook B) (Resolved "Bad Gateway") in
  RedditMusic.next head = RedditMusic.await_json
  /\ RedditMusic.abortController (RedditMusic.task A)
       ∈ RedditMusic.aborted (RedditMusic.started_hook B)
  /\ RedditMusic.actions late
     = [RedditMusic.setSongs [song_b]; RedditMusic.setAfter (Some (JStr "t3_b"))]
  /\ RedditMusic.next late = RedditMusic.settled (RedditMusic.returned [song_b])
  /\ Store.queue (RedditMusic.run (RedditMusic.actions late) store_a)
     = {| Store.songs := [song_b]; Store.currentIndex := 0;
          Store.after := Some (JStr "t3_b") |}
  /\ Store.queue (RedditMusic.run (RedditMusic.actions late) store_a)
     <> Store.queue store_a
  /\ RedditMusic.actions failed
     = [RedditMusic.addMessage (RedditMusic.failed_message ["listentothis"] None)]
  /\ RedditMusic.next failed = RedditMusic.settled (RedditMusic.threw Error).
Proof.
  intros v h0 parseSong item d A head B late failed.
  assert (Hhead : head = {| RedditMusic.hook := RedditMusic.started_hook A;
                            RedditMusic.actions := [];
                            RedditMusic.next := RedditMusic.await_json |}).
  { subst head. unfold RedditMusic.after_fetch.
    rewrite bool_decide_eq_false_2; [reflexivity|]. cbn. set_solver. }
  assert (HA : RedditMusic.abortController (RedditMusic.task A)
               ∈ RedditMusic.aborted (RedditMusic.started_hook B)).
  { subst B. rewrite Hhead. cbn [RedditMusic.hook].
    apply start_aborts_ongoing. reflexivity. }
  assert (Hlate : late
    = {| RedditMusic.hook := RedditMusic.started_hook B;
         RedditMusic.actions :=
           [RedditMusic.setSongs [song_b]; RedditMusic.setAfter (Some (JStr "t3_b"))];
         RedditMusic.next := RedditMusic.settled (RedditMusic.returned [song_b]) |}).
  { subst late.
    rewrite (after_json_superseded (fun l => l) parseSong _ _
               (<[ "data" := JObj d ]> ∅) d [item "b"] HA);
      reflexivity. }
  assert (Hfailed : failed
    = {| RedditMusic.hook := RedditMusic.started_hook B;
         RedditMusic.actions :=
           [RedditMusic.addMessage (RedditMusic.failed_message ["listentothis"] None)];
         RedditMusic.next := RedditMusic.settled (RedditMusic.threw Error) |}).
  { subst failed. unfold RedditMusic.after_text, RedditMusic.throw_.
    rewrite finally_aborted by exact HA. reflexivity. }
  rewrite Hhead, Hlate, Hfailed. cbn [RedditMusic.next RedditMusic.actions].
  repeat split; try reflexivity; try exact HA. discriminate.
Qed.



(** ** The default subreddits *)

Lemma named_falsy (r : option string) :
  InitializeApp.named (if truthy_str r then r else None) = InitializeApp.named r.
Proof.
  destruct r as [r|]; [|reflexivity]. cbn [truthy_str].
  destruct (String.eqb_spec r ""); [subst|]; reflexivity.
Qed.

(** C10.  With no search query and no subreddit selected, [fetchMusic] is the
    fetch of [["listentothis"]]; and when neither the path, nor the [r]
    parameter, nor the saved state names a subreddit, the initialisation
    selects and fetches the same default. *)
Theorem default_subreddits (v : RedditMusic.StoreView) (after : option string)
    (h : RedditMusic.Hook) (e : InitializeApp.Env) :
  RedditMusic.searchQuery v = "" ->
  RedditMusic.selectedSubreddits v = [] ->
  InitializeApp.named (InitializeApp.pathMatch (InitializeApp.pathname e)) = None ->
  InitializeApp.named (InitializeApp.rParam e) = None ->
  InitializeApp.selectedSubreddits e = [] ->
  RedditMusic.fetchMusic v after h
  = RedditMusic.fetchMusicForSubreddits v ["listentothis"] after h
  /\ RedditMusic.url (RedditMusic.request (RedditMusic.fetchMusic v after h))
     = "/api/get/r/listentothis/" +:+ RedditMusic.sortMethod v +:+ ".json"
  /\ InitializeApp.initialize false e
     = (true, [InitializeApp.setSelectedSubreddits ["listentothis"];
               InitializeApp.fetchFromSubreddits ["listentothis"]]).
Proof.
  intros Hq Hs Hpath Hr Hsaved.
  assert (Hf : RedditMusic.fetchMusic v after h
               = RedditMusic.fetchMusicForSubreddits v ["listentothis"] after h).
  { unfold RedditMusic.fetchMusic. rewrite Hq, Hs. reflexivity. }
  split; [exact Hf|]. split.
  - rewrite Hf. reflexivity.
  - unfold InitializeApp.initialize.
    rewrite Hpath, named_falsy, Hr, Hsaved. reflexivity.
Qed.

(** The theorem for the root path, no query string and nothing saved. *)
Lemma default_subreddits_witness :
  InitializeApp.initialize false
    {| InitializeApp.pathname := "/"; InitializeApp.rParam := None;
       InitializeApp.selectedSubreddits := [] |}
  = (true, [InitializeApp.setSelectedSubreddits ["listentothis"];
            InitializeApp.fetchFromSubreddits ["listentothis"]]).
Proof.
  refine (proj2 (proj2 (default_subreddits
    {| RedditMusic.selectedSubreddits := []; RedditMusic.sortMethod := "hot";
       RedditMusic.topMethod := "week"; RedditMusic.searchQuery := "" |}
    None
    {| RedditMusic.abortControllerRef := None; RedditMusic.aborted := ∅;
       RedditMusic.fresh := 0 |}
    _ _ _ _ _ _))); reflexivity.
Defined.

(** ** The listing proxy *)

Lemma GET_miss (q : Proxy.Request) (cache : gmap string (json * Z)) :
  miss q cache ->
  Proxy.GET q cache
  = Proxy.respond (Proxy.redditUrl (Proxy.pathSegments q) (Proxy.query q))
      (Proxy.written_at q) cache (Proxy.retry (Proxy.upstream q) 3 0 Proxy.start).
Proof.
  intros [Hm Hc]. unfold Proxy.GET.
  rewrite (proj2 (String.eqb_neq _ _) Hm).
  destruct (cache !! _) as [[cached timestamp]|]; [|reflexivity].
  rewrite bool_decide_eq_false_2 by lia. reflexivity.
Qed.

(** A fetch settles before the timer fires with the upstream's answer, or
    when it fires (or at once, if it has fired) with an [AbortError]. *)
Lemma fetch_settles (now : N) (a : Proxy.Attempt) :
  (Proxy.fetch now a = ((now + delay a)%N, Proxy.result a)
   /\ (now + delay a < Proxy.timeout)%N)
  \/ (Proxy.fetch now a = (N.max now Proxy.timeout, Rejected AbortError)
      /\ (Proxy.timeout <= now + delay a)%N).
Proof.
  unfold Proxy.fetch, delay.
  destruct (N.leb_spec Proxy.timeout now) as [H|H].
  - right. rewrite N.max_l by exact H. split; [reflexivity|lia].
  - destruct (Proxy.latency a) as [d|].
    + destruct (N.ltb_spec (now + d) Proxy.timeout) as [H'|H'].
      * left. split; [reflexivity|exact H'].
      * right. rewrite N.max_r by lia. split; [reflexivity|exact H'].
    + right. rewrite N.max_r by lia. split; [reflexivity|lia].
Qed.

Lemma wait_now (a : nat) (l : Proxy.Loop) :
  Proxy.now (Proxy.wait a l) = (Proxy.now l + total (backoffs a 1))%N
  /\ Proxy.waits (Proxy.wait a l) = Proxy.waits l ++ backoffs a 1
  /\ Proxy.fetches (Proxy.wait a l) = Proxy.fetches l
  /\ Proxy.response (Proxy.wait a l) = Proxy.response l
  /\ Proxy.lastError (Proxy.wait a l) = Proxy.lastError l.
Proof.
  unfold Proxy.wait, backoffs, backoff, total. cbn [seq flat_map].
  destruct (bool_decide (0 < a)); cbn; rewrite ?app_nil_r;
    repeat split; try reflexivity; lia.
Qed.

Lemma backoffs_S (a m : nat) :
  backoffs a (S m) = backoffs a 1 ++ backoffs (S a) m.
Proof. unfold backoffs. cbn [seq flat_map]. rewrite app_nil_r. reflexivity. Qed.

Lemma total_app (l1 l2 : list N) : total (l1 ++ l2) = (total l1 + total l2)%N.
Proof. unfold total. induction l1 as [|x l1 IH]; cbn; [reflexivity|]. rewrite IH. lia. Qed.

(** How the retry loop ends, [n = 3 - attempt] values of [attempt] being
    left: after [m] fetches, with the waits made before them; with the
    response of the last fetch, which arrived before the timer fired, or with
    the error of the third fetch; and a timer that fired ends the loop with
    an [AbortError]. *)
Lemma retry_ends (upstream : nat -> Proxy.Attempt) (n a : nat) (l : Proxy.Loop) :
  n + a = 3 -> 1 <= n ->
  let x := Proxy.retry upstream n a l in
  exists m, 1 <= m <= n
    /\ Proxy.fetches (loop_of x) = Proxy.fetches l + m
    /\ Proxy.waits (loop_of x) = Proxy.waits l ++ backoffs a m
    /\ (Proxy.now (loop_of x)
        <= N.max (Proxy.now l) Proxy.timeout + total (backoffs a m))%N
    /\ match x with
       | Proxy.done l' =>
           (Proxy.now l' < Proxy.timeout)%N
           /\ exists r, Proxy.response l' = Some r
                /\ Proxy.result (upstream (a + m - 1)) = Resolved r
       | Proxy.thrown e l' =>
           (Proxy.result (upstream 2) = Rejected e
            /\ (Proxy.now l' < Proxy.timeout)%N)
           \/ (e = AbortError /\ (Proxy.timeout <= Proxy.now l')%N)
       end.
Proof.
  revert a l. induction n as [|n IH]; intros a l Hna Hn; [lia|].
  cbn zeta. cbn [Proxy.retry].
  destruct (wait_now a l) as (Hw_now & Hw_waits & Hw_f & Hw_r & Hw_e).
  set (l1 := Proxy.wait a l) in *.
  assert (Hrec : forall l2, Proxy.fetches l2 = S (Proxy.fetches l) ->
            Proxy.waits l2 = Proxy.waits l ++ backoffs a 1 ->
            (Proxy.now l2 <= N.max (Proxy.now l1) Proxy.timeout)%N ->
            a < 2 ->
            let x := Proxy.retry upstream n (S a) l2 in
            exists m, 1 <= m <= S n
              /\ Proxy.fetches (loop_of x) = Proxy.fetches l + m
              /\ Proxy.waits (loop_of x) = Proxy.waits l ++ backoffs a m
              /\ (Proxy.now (loop_of x)
                  <= N.max (Proxy.now l) Proxy.timeout + total (backoffs a m))%N
              /\ match x with
                 | Proxy.done l' =>
                     (Proxy.now l' < Proxy.timeout)%N
                     /\ exists r, Proxy.response l' = Some r
                          /\ Proxy.result (upstream (a + m - 1)) = Resolved r
                 | Proxy.thrown e l' =>
                     (Proxy.result (upstream 2) = Rejected e
                      /\ (Proxy.now l' < Proxy.timeout)%N)
                     \/ (e = AbortError /\ (Proxy.timeout <= Proxy.now l')%N)
                 end).
  { intros l2 Hf2 Hw2 Hn2 Ha.
    assert (H1 : n + S a = 3) by lia. assert (H2 : 1 <= n) by lia.
    pose proof (IH (S a) l2 H1 H2) as IH'. cbv zeta in IH'.
    destruct IH' as (m & Hm & Hf & Hw & Ht & Hend).
    cbv zeta. exists (S m). split; [lia|]. split; [rewrite Hf, Hf2; lia|].
    split; [rewrite Hw, Hw2, (backoffs_S a m), app_assoc; reflexivity|].
    split.
    - rewrite (backoffs_S a m), total_app. lia.
    - destruct (Proxy.retry upstream n (S a) l2) as [l'|e l'].
      + destruct Hend as (Hlt & r & Hr & Hres). split; [exact Hlt|].
        exists r. split; [exact Hr|].
        replace (a + S m - 1) with (S a + m - 1) by lia. exact Hres.
      + exact Hend. }
  destruct (fetch_settles (Proxy.now l1) (upstream a)) as [[Hfetch Hin]|[Hfetch Hout]];
    rewrite Hfetch.
  - destruct (Proxy.result (upstream a)) as [r|e] eqn:Hres.
    + destruct (Proxy.ok r) eqn:Hok;
        [|destruct (bool_decide (Proxy.status r = 403%Z) && bool_decide (a < 2)) eqn:H403].
      * exists 1. cbn [loop_of Proxy.fetches Proxy.waits Proxy.now Proxy.response].
        split; [lia|]. split; [lia|]. split; [exact Hw_waits|]. split; [lia|].
        split; [exact Hin|]. exists r. split; [reflexivity|].
        replace (a + 1 - 1) with a by lia. exact Hres.
      * apply andb_prop in H403 as [_ Ha]. apply bool_decide_eq_true in Ha.
        apply Hrec; cbn; [lia|exact Hw_waits|lia|exact Ha].
      * exists 1. cbn [loop_of Proxy.fetches Proxy.waits Proxy.now Proxy.response].
        split; [lia|]. split; [lia|]. split; [exact Hw_waits|]. split; [lia|].
        split; [exact Hin|]. exists r. split; [reflexivity|].
        replace (a + 1 - 1) with a by lia. exact Hres.
    + destruct (bool_decide (a = 2)) eqn:Ha.
      * apply bool_decide_eq_true in Ha. subst a.
        exists 1. cbn [loop_of Proxy.fetches Proxy.waits Proxy.now].
        split; [lia|]. split; [lia|]. split; [exact Hw_waits|]. split; [lia|].
        left. split; [exact Hres|exact Hin].
      * apply bool_decide_eq_false in Ha.
        apply Hrec; cbn; [lia|exact Hw_waits|lia|lia].
  - destruct (bool_decide (a = 2)) eqn:Ha.
    + exists 1. cbn [loop_of Proxy.fetches Proxy.waits Proxy.now].
      split; [lia|]. split; [lia|]. split; [exact Hw_waits|]. split; [lia|].
      right. split; [reflexivity|lia].
    + apply bool_decide_eq_false in Ha.
      apply Hrec; cbn; [lia|exact Hw_waits|lia|lia].
Qed.

Lemma backoffs_from_0 (m : nat) :
  1 <= m <= 3 ->
  backoffs 0 m = take (m - 1) [1000%N; 2000%N]
  /\ (total (backoffs 0 m) <= 3000)%N.
Proof.
  intros Hm.
  assert (m = 1 \/ m = 2 \/ m = 3) as [->|[->| ->]] by lia;
    split; vm_compute; (reflexivity || discriminate).
Qed.

(** The loop for every upstream: at most three fetches, before the second a
    wait of 1000 ms and before the third one of 2000 ms, and no more than
    3000 ms after the timer has fired. *)
Lemma retry_bounded (upstream : nat -> Proxy.Attempt) :
  let l := loop_of (Proxy.retry upstream 3 0 Proxy.start) in
  1 <= Proxy.fetches l <= 3
  /\ Proxy.waits l = take (Proxy.fetches l - 1) [1000%N; 2000%N]
  /\ (Proxy.now l <= Proxy.timeout + 3000)%N.
Proof.
  destruct (retry_ends upstream 3 0 Proxy.start eq_refl) as (m & Hm & Hf & Hw & Ht & _);
    [lia|].
  cbv zeta. cbn [Proxy.start Proxy.fetches Proxy.waits Proxy.now] in Hf, Hw, Ht.
  destruct (backoffs_from_0 m Hm) as [Hb Htot].
  rewrite Hf, Hw, Hb. cbn [app Nat.add].
  rewrite N.max_r in Ht by (vm_compute; discriminate).
  repeat split; try lia.
Qed.

Lemma fetch_in_time (now : N) (a : Proxy.Attempt) :
  (now + delay a < Proxy.timeout)%N ->
  Proxy.fetch now a = ((now + delay a)%N, Proxy.result a).
Proof.
  intros H. destruct (fetch_settles now a) as [[Hf _]|[_ Hout]]; [exact Hf|lia].
Qed.

(** Closes a goal that an attempt is answered before the timer fires, from
    the arrival times among the hypotheses. *)
Ltac in_time :=
  repeat rewrite (proj1 (wait_now _ _));
  cbn [Proxy.now Proxy.start];
  repeat match goal with
         | |- context [total (backoffs ?a 1)] =>
             let v := eval vm_compute in (total (backoffs a 1)) in
             change (total (backoffs a 1)) with v
         end;
  lia.

(** A 403 on one of the first two attempts is retried. *)
Lemma retry_403 (upstream : nat -> Proxy.Attempt) (n a : nat) (l : Proxy.Loop)
    (r : Proxy.Response) :
  a < 2 ->
  Proxy.result (upstream a) = Resolved r -> Proxy.status r = 403%Z ->
  (Proxy.now (Proxy.wait a l) + delay (upstream a) < Proxy.timeout)%N ->
  Proxy.retry upstream (S n) a l
  = Proxy.retry upstream n (S a)
      {| Proxy.response := Some r;
         Proxy.lastError := Proxy.lastError (Proxy.wait a l);
         Proxy.now := (Proxy.now (Proxy.wait a l) + delay (upstream a))%N;
         Proxy.waits := Proxy.waits (Proxy.wait a l);
         Proxy.fetches := S (Proxy.fetches (Proxy.wait a l)) |}.
Proof.
  intros Ha Hr Hs Ht. cbn [Proxy.retry].
  rewrite (fetch_in_time _ _ Ht), Hr.
  unfold Proxy.ok. rewrite Hs.
  rewrite (bool_decide_eq_false_2 (200 <= 403 <= 299)%Z) by lia.
  rewrite (bool_decide_eq_true_2 (403 = 403)%Z) by reflexivity.
  rewrite (bool_decide_eq_true_2 (a < 2)) by exact Ha.
  reflexivity.
Qed.

(** An ok response ends the loop. *)
Lemma retry_ok (upstream : nat -> Proxy.Attempt) (n a : nat) (l : Proxy.Loop)
    (r : Proxy.Response) :
  Proxy.result (upstream a) = Resolved r -> Proxy.ok r = true ->
  (Proxy.now (Proxy.wait a l) + delay (upstream a) < Proxy.timeout)%N ->
  Proxy.retry upstream (S n) a l
  = Proxy.done
      {| Proxy.response := Some r;
         Proxy.lastError := Proxy.lastError (Proxy.wait a l);
         Proxy.now := (Proxy.now (Proxy.wait a l) + delay (upstream a))%N;
         Proxy.waits := Proxy.waits (Proxy.wait a l);
         Proxy.fetches := S (Proxy.fetches (Proxy.wait a l)) |}.
Proof.
  intros Hr Hok Ht. cbn [Proxy.retry].
  rewrite (fetch_in_time _ _ Ht), Hr, Hok. reflexivity.
Qed.

(** A 403 on the third attempt ends the loop with that response. *)
Lemma retry_403_last (upstream : nat -> Proxy.Attempt) (n : nat) (l : Proxy.Loop)
    (r : Proxy.Response) :
  Proxy.result (upstream 2) = Resolved r -> Proxy.status r = 403%Z ->
  (Proxy.now (Proxy.wait 2%nat l) + delay (upstream 2%nat) < Proxy.timeout)%N ->
  Proxy.retry upstream (S n) 2 l
  = Proxy.done
      {| Proxy.response := Some r;
         Proxy.lastError := Proxy.lastError (Proxy.wait 2 l);
         Proxy.now := (Proxy.now (Proxy.wait 2%nat l) + delay (upstream 2%nat))%N;
         Proxy.waits := Proxy.waits (Proxy.wait 2 l);
         Proxy.fetches := S (Proxy.fetches (Proxy.wait 2 l)) |}.
Proof.
  intros Hr Hs Ht. cbn [Proxy.retry].
  rewrite (fetch_in_time _ _ Ht), Hr.
  unfold Proxy.ok. rewrite Hs.
  rewrite (bool_decide_eq_false_2 (200 <= 403 <= 299)%Z) by lia.
  reflexivity.
Qed.

Lemma respond_ok (cacheKey : string) (written_at : Z)
    (cache : gmap string (json * Z)) (l : Proxy.Loop) (r : Proxy.Response)
    (j : json) :
  Proxy.response l = Some r -> Proxy.ok r = true ->
  Proxy.json_ r = Resolved j -> passable j = true ->
  Proxy.respond cacheKey written_at cache (Proxy.done l)
  = (<[ cacheKey := (j, written_at) ]> cache,
     {| Proxy.reply_status := 200; Proxy.body := Proxy.data j |}).
Proof.
  intros Hr Hok Hj Hp. unfold Proxy.respond. rewrite Hr, Hok, Hj. cbn [negb].
  unfold passable in Hp. apply andb_prop in Hp as [-> ->]. reflexivity.
Qed.

(** Three 403s, each answered in time: the third is passed on to the
    caller. *)
Lemma three_403_passed_on (q : Proxy.Request) (cache : gmap string (json * Z))
    (r0 r1 r2 : Proxy.Response) (errorText : string) :
  miss q cache ->
  Proxy.result (Proxy.upstream q 0) = Resolved r0 -> Proxy.status r0 = 403%Z ->
  Proxy.result (Proxy.upstream q 1) = Resolved r1 -> Proxy.status r1 = 403%Z ->
  Proxy.result (Proxy.upstream q 2) = Resolved r2 -> Proxy.status r2 = 403%Z ->
  Proxy.text r2 = Resolved errorText ->
  (arrival (Proxy.upstream q) 2 < Proxy.timeout)%N ->
  Proxy.GET q cache
  = (cache, {| Proxy.reply_status := 403;
               Proxy.body := Proxy.failure "Failed to fetch from Reddit API" |}).
Proof.
  intros Hmiss Hr0 Hs0 Hr1 Hs1 Hr2 Hs2 Htext Ht.
  rewrite (GET_miss _ _ Hmiss).
  cbn [arrival] in Ht. unfold backoff in Ht.
  cbn [N.of_nat Pos.of_succ_nat Pos.succ N.mul Pos.mul] in Ht.
  rewrite (retry_403 _ _ 0 _ r0 ltac:(lia) Hr0 Hs0) by in_time.
  rewrite (retry_403 _ _ 1 _ r1 ltac:(lia) Hr1 Hs1) by in_time.
  rewrite (retry_403_last _ _ _ r2 Hr2 Hs2) by in_time.
  unfold Proxy.respond. cbn [Proxy.response]. unfold Proxy.ok.
  rewrite Hs2, Htext.
  rewrite (bool_decide_eq_false_2 (200 <= 403 <= 299)%Z) by lia.
  reflexivity.
Qed.

Lemma request_after_403s_miss (n : nat) : miss (request_after_403s n) ∅.
Proof. split; [discriminate|]. rewrite lookup_empty. exact I. Qed.

(** C4 fails as stated.  When the upstream answers 403 three times and would
    answer 200 to a fourth attempt, the proxy makes no fourth attempt: the
    caller gets the error reply with status 403, not the data. *)
Lemma three_403_then_200_counterexample :
  snd (Proxy.GET (request_after_403s 3) ∅)
  = {| Proxy.reply_status := 403;
       Proxy.body := Proxy.failure "Failed to fetch from Reddit API" |}
  /\ Proxy.fetches (loop_of (Proxy.retry (Proxy.upstream (request_after_403s 3))
                               3 0 Proxy.start)) = 3
  /\ Proxy.result (Proxy.upstream (request_after_403s 3) 3) = Resolved listing.
Proof.
  rewrite (GET_miss _ _ (request_after_403s_miss 3)).
  repeat split; vm_compute; reflexivity.
Qed.

(** C4, amended.  When the upstream answers 403 at most twice and then 200
    with a JSON object or array, each answer arriving before the 30 s timer
    fires, the caller gets the data with status 200, after a wait of 1000 ms
    before the second attempt and of 2000 ms before the third.  For every
    upstream the proxy makes at most three attempts, with these waits. *)
Theorem at_most_two_403_then_200 (q : Proxy.Request)
    (cache : gmap string (json * Z)) (k : nat) (r : Proxy.Response) (j : json) :
  miss q cache ->
  k <= 2 ->
  (forall i, i < k ->
     exists r', Proxy.result (Proxy.upstream q i) = Resolved r'
                /\ Proxy.status r' = 403%Z) ->
  Proxy.result (Proxy.upstream q k) = Resolved r ->
  Proxy.status r = 200%Z ->
  Proxy.json_ r = Resolved j ->
  passable j = true ->
  (arrival (Proxy.upstream q) k < Proxy.timeout)%N ->
  snd (Proxy.GET q cache)
  = {| Proxy.reply_status := 200; Proxy.body := Proxy.data j |}
  /\ Proxy.fetches (loop_of (Proxy.retry (Proxy.upstream q) 3 0 Proxy.start)) = S k
  /\ Proxy.waits (loop_of (Proxy.retry (Proxy.upstream q) 3 0 Proxy.start))
     = take k [1000%N; 2000%N]
  /\ (forall upstream,
        let l := loop_of (Proxy.retry upstream 3 0 Proxy.start) in
        Proxy.fetches l <= 3
        /\ Proxy.waits l = take (Proxy.fetches l - 1) [1000%N; 2000%N]).
Proof.
  intros Hmiss Hk H403 Hr Hs Hj Hp Ht.
  assert (Hok : Proxy.ok r = true).
  { unfold Proxy.ok. rewrite Hs. apply bool_decide_eq_true_2. lia. }
  rewrite (GET_miss _ _ Hmiss).
  assert (Hgen : forall upstream,
            let l := loop_of (Proxy.retry upstream 3 0 Proxy.start) in
            Proxy.fetches l <= 3
            /\ Proxy.waits l = take (Proxy.fetches l - 1) [1000%N; 2000%N]).
  { intros up. destruct (retry_bounded up) as (Hf & Hw & _).
    cbv zeta. split; [lia|exact Hw]. }
  assert (k = 0 \/ k = 1 \/ k = 2) as [->|[->| ->]] by lia.
  - cbn [arrival] in Ht.
    rewrite (retry_ok _ _ _ _ r Hr Hok) by in_time.
    rewrite (respond_ok _ _ _ _ r j) by (reflexivity || assumption).
    repeat split; try reflexivity; apply Hgen.
  - destruct (H403 0) as (r0 & Hr0 & Hs0); [lia|].
    cbn [arrival] in Ht. unfold backoff in Ht.
    cbn [N.of_nat Pos.of_succ_nat Pos.succ N.mul Pos.mul] in Ht.
    rewrite (retry_403 _ _ 0 _ r0 ltac:(lia) Hr0 Hs0) by in_time.
    rewrite (retry_ok _ _ _ _ r Hr Hok) by in_time.
    rewrite (respond_ok _ _ _ _ r j) by (reflexivity || assumption).
    repeat split; try reflexivity; apply Hgen.
  - destruct (H403 0) as (r0 & Hr0 & Hs0); [lia|].
    destruct (H403 1) as (r1 & Hr1 & Hs1); [lia|].
    cbn [arrival] in Ht. unfold backoff in Ht.
    cbn [N.of_nat Pos.of_succ_nat Pos.succ N.mul Pos.mul] in Ht.
    rewrite (retry_403 _ _ 0 _ r0 ltac:(lia) Hr0 Hs0) by in_time.
    rewrite (retry_403 _ _ 1 _ r1 ltac:(lia) Hr1 Hs1) by in_time.
    rewrite (retry_ok _ _ _ _ r Hr Hok) by in_time.
    rewrite (respond_ok _ _ _ _ r j) by (reflexivity || assumption).
    repeat split; try reflexivity; apply Hgen.
Qed.

(** The theorem for two 403s and then the listing. *)
Lemma at_most_two_403_then_200_witness :
  snd (Proxy.GET (request_after_403s 2) ∅)
  = {| Proxy.reply_status := 200; Proxy.body := Proxy.data (JObj ∅) |}.
Proof.
  refine (proj1 (at_most_two_403_then_200 (request_after_403s 2) ∅ 2 listing
                   (JObj ∅) (request_after_403s_miss 2) _ _ _ _ _ _ _)).
  - lia.
  - intros i Hi. exists forbidden. split; [|reflexivity].
    cbn. rewrite bool_decide_eq_true_2 by exact Hi. reflexivity.
  - reflexivity.
  - reflexivity.
  - reflexivity.
  - reflexivity.
  - vm_compute. reflexivity.
Defined.

(** The reply of the [catch] branch is an error object. *)
Lemma catch_is_failure (e : error) :
  exists msg, Proxy.body (Proxy.catch_ e) = Proxy.failure msg
    /\ (Proxy.reply_status (Proxy.catch_ e) = 504
        \/ Proxy.reply_status (Proxy.catch_ e) = 503
        \/ Proxy.reply_status (Proxy.catch_ e) = 500)%Z.
Proof.
  unfold Proxy.catch_.
  destruct (String.eqb _ _); [eexists; split; [reflexivity|auto]|].
  destruct (_ || _); [eexists; split; [reflexivity|auto]|].
  destruct (isSyntaxError e); eexists; split; try reflexivity; auto.
Qed.

(** The statuses with which [NextResponse.json] builds a reply, and the
    reply of the [catch] branch for the others. *)
Lemma NextResponse_json_carries (b : Proxy.Body) (status : Z) :
  carries_body status ->
  Proxy.NextResponse_json b status
  = Resolved {| Proxy.reply_status := status; Proxy.body := b |}.
Proof.
  intros (Hr & H204 & H205 & H304). unfold Proxy.NextResponse_json.
  rewrite (bool_decide_eq_true_2 _ Hr). cbn [negb].
  rewrite bool_decide_eq_false_2 by lia. reflexivity.
Qed.

Lemma NextResponse_json_throws (b : Proxy.Body) (status : Z) :
  ~ carries_body status ->
  exists e, Proxy.NextResponse_json b status = Rejected e
    /\ Proxy.catch_ e
       = {| Proxy.reply_status := 500;
            Proxy.body := Proxy.failure "Internal server error" |}.
Proof.
  intros H. unfold Proxy.NextResponse_json, carries_body in *.
  destruct (bool_decide (200 <= status <= 599)%Z) eqn:Hr; cbn [negb].
  - apply bool_decide_eq_true in Hr.
    rewrite bool_decide_eq_true_2 by lia.
    exists TypeError. split; reflexivity.
  - exists RangeError. split; reflexivity.
Qed.

(** C5 (the code at its failing input).  The upstream cannot be reached: each
    of the three calls of [fetch] is rejected with the error of a failed
    fetch, whose system code is on [error.cause].  The [catch] branch tests
    [error.code], which this error does not have: the reply is the generic
    one, with status 500, and not the network error with status 503, which
    the same branch gives to an error that carries the code itself. *)
Theorem unreachable_upstream_answers_500 (cause : string) :
  let q := request_unreachable cause in
  let x := Proxy.retry (Proxy.upstream q) 3 0 Proxy.start in
  Proxy.GET q ∅
  = (∅, {| Proxy.reply_status := 500;
           Proxy.body := Proxy.failure "Internal server error" |})
  /\ x = Proxy.thrown (fetch_failed cause)
           {| Proxy.response := None; Proxy.lastError := Some (fetch_failed cause);
              Proxy.now := 3009%N; Proxy.waits := [1000%N; 2000%N];
              Proxy.fetches := 3 |}
  /\ Proxy.reply_status (snd (Proxy.GET q ∅)) <> 503%Z
  /\ Proxy.catch_ {| name := "Error"; code := Some "ECONNREFUSED";
                     isSyntaxError := false |}
     = {| Proxy.reply_status := 503;
          Proxy.body := Proxy.failure "Network error - Could not reach Reddit API" |}
  /\ Proxy.catch_ {| name := "Error"; code := Some "ENOTFOUND";
                     isSyntaxError := false |}
     = {| Proxy.reply_status := 503;
          Proxy.body := Proxy.failure "Network error - Could not reach Reddit API" |}.
Proof.
  cbv zeta.
  assert (Hx : Proxy.retry (Proxy.upstream (request_unreachable cause)) 3 0 Proxy.start
               = Proxy.thrown (fetch_failed cause)
                   {| Proxy.response := None;
                      Proxy.lastError := Some (fetch_failed cause);
                      Proxy.now := 3009%N; Proxy.waits := [1000%N; 2000%N];
                      Proxy.fetches := 3 |}) by reflexivity.
  assert (HG : Proxy.GET (request_unreachable cause) ∅
               = (∅, {| Proxy.reply_status := 500;
                        Proxy.body := Proxy.failure "Internal server error" |})).
  { rewrite GET_miss by (split; [discriminate|rewrite lookup_empty; exact I]).
    rewrite Hx. reflexivity. }
  rewrite HG. repeat split; try reflexivity; try exact Hx. discriminate.
Qed.

(* ===================================================================== *)
(** * Part IV. Further properties of the code                             *)
(* ===================================================================== *)

(** ** The controls *)

Lemma sub_fin_not_nan `{R : Rounding} (x : Q) (b : number) :
  b <> NaN -> sub (Fin x) b <> NaN.
Proof.
  intros Hb. destruct b as [| | |y]; cbn; try congruence. apply round_not_nan.
Qed.

Lemma div_by_positive_not_nan `{R : Rounding} (a : number) (h : Q) :
  a <> NaN -> (0 < h)%Q -> div a (Fin h) <> NaN.
Proof.
  intros Ha Hh.
  assert (Hle : Qle_bool 0 h = true) by (apply Qle_bool_iff, Qlt_le_weak, Hh).
  destruct a as [| | |x]; cbn; try congruence.
  - rewrite Hle. discriminate.
  - rewrite Hle. discriminate.
  - rewrite Qeq_bool_false; [apply round_not_nan|].
    intros E. rewrite E in Hh. apply (Qlt_irrefl 0), Hh.
Qed.

(** X1.  A click on a volume slider of finite, positive height, at a finite
    position, sets a volume that is a finite number between 0 and 100,
    however the arithmetic rounds. *)
Theorem volume_click_in_range `{R : Rounding} (y top height : Q) :
  (0 < height)%Q ->
  exists q,
    ControlsHandlers.volume_click
      {| ControlsHandlers.clientY := Fin y; ControlsHandlers.rect_top := Fin top;
         ControlsHandlers.rect_height := Fin height |} = Fin q
    /\ (0 <= q <= 100)%Q.
Proof.
  intros Hh. unfold ControlsHandlers.volume_click.
  cbn [ControlsHandlers.clientY ControlsHandlers.rect_top
       ControlsHandlers.rect_height].
  apply clamp_percentage. apply mul_fin_not_nan; [|discriminate].
  apply div_by_positive_not_nan; [|exact Hh].
  apply sub_fin_not_nan. cbn. apply round_not_nan.
Qed.

(** The theorem for a click 32 px below the top of a slider 128 px high. *)
Lemma volume_click_in_range_witness :
  exists q,
    ControlsHandlers.volume_click (R := exact)
      {| ControlsHandlers.clientY := Fin 232; ControlsHandlers.rect_top := Fin 200;
         ControlsHandlers.rect_height := Fin 128 |} = Fin q
    /\ (0 <= q <= 100)%Q.
Proof.
  apply (volume_click_in_range (R := exact) 232 200 128). reflexivity.
Defined.

(** Exact arithmetic and the coarse arithmetic are roundings to nearest. *)
Lemma exact_nearest : Nearest exact.
Proof.
  split.
  - intros p q H. exact H.
  - intros z _. exists (inject_Z z). split; [reflexivity|apply Qeq_refl].
Qed.

Lemma fixed_round (q : Q) :
  round (Rounding := fixed) q = Fin (inject_Z (Qfloor (q * 1024 + (1 # 2))) / 1024).
Proof. reflexivity. Qed.

Lemma fixed_nearest : Nearest fixed.
Proof.
  split.
  - intros p q H. rewrite !fixed_round. cbn [le].
    apply Qmult_le_compat_r; [|discriminate].
    rewrite <- Zle_Qle. apply Qfloor_resp_le.
    apply Qplus_le_l. apply Qmult_le_compat_r; [exact H|discriminate].
  - intros z _. eexists. split; [apply fixed_round|].
    assert (E : Qfloor (inject_Z z * 1024 + (1 # 2)) = (z * 1024)%Z).
    { unfold Qfloor. cbn. symmetry. apply Z.div_unique with (r := 1%Z); lia. }
    rewrite E. rewrite inject_Z_mult. field.
Qed.

(** Rounding keeps a result above a representable bound; it may overflow. *)
Lemma round_above {R : Rounding} {N : Nearest R} (a q : Q) :
  representable a -> (a <= q)%Q ->
  round q = PInf \/ exists t, round q = Fin t /\ (a <= t)%Q.
Proof.
  intros (a' & Ha & Ea) H. pose proof (round_le a q H) as Hle.
  rewrite Ha in Hle. destruct (round q) as [| | |t]; cbn in Hle; try contradiction.
  - left. reflexivity.
  - right. exists t. split; [reflexivity|]. rewrite <- Ea. exact Hle.
Qed.

Lemma round_below {R : Rounding} {N : Nearest R} (b q : Q) :
  representable b -> (q <= b)%Q ->
  round q = NInf \/ exists t, round q = Fin t /\ (t <= b)%Q.
Proof.
  intros (b' & Hb & Eb) H. pose proof (round_le q b H) as Hle.
  rewrite Hb in Hle. destruct (round q) as [| | |t]; cbn in Hle; try contradiction.
  - left. reflexivity.
  - right. exists t. split; [reflexivity|]. rewrite <- Eb. exact Hle.
Qed.

(** A result between two representable numbers is rounded to a number
    between them. *)
Lemma round_between {R : Rounding} {N : Nearest R} (a b q : Q) :
  representable a -> representable b -> (a <= q <= b)%Q ->
  exists t, round q = Fin t /\ (a <= t <= b)%Q.
Proof.
  intros Ha Hb [H1 H2].
  destruct (round_above a q Ha H1) as [E|(t & E & Ht)];
    destruct (round_below b q Hb H2) as [E'|(t' & E' & Ht')];
    rewrite E in E'; try discriminate.
  injection E' as <-. exists t. auto.
Qed.

(** X2.  In every arithmetic that rounds to nearest, that of doubles
    included, a click on a progress bar of finite, positive width while the
    duration is a finite, positive number of the arithmetic seeks to a time
    between 0 and the duration. *)
Theorem newTime_within_duration {R : Rounding} {N : Nearest R}
    (v : Controls.View) (x left width d : Q) :
  Controls.duration v = Fin d -> (0 < d)%Q -> representable d -> (0 < width)%Q ->
  exists t,
    Controls.newTime v
      {| Controls.clientX := Fin x; Controls.rect_left := Fin left;
         Controls.rect_width := Fin width |} = Fin t
    /\ (0 <= t <= d)%Q.
Proof.
  intros Hd Hpos Hrep Hw. unfold Controls.newTime.
  cbn [Controls.clientX Controls.rect_left Controls.rect_width].
  rewrite Hd.
  destruct (clamp_percentage
              (mul (div (sub (Fin x) (Fin left)) (Fin width)) (lit 100)))
    as (p & Hp & Hp0 & Hp100).
  { apply mul_fin_not_nan; [|discriminate].
    apply div_by_positive_not_nan; [|exact Hw].
    cbn. apply round_not_nan. }
  rewrite Hp.
  assert (H0 : representable 0).
  { apply (round_integer 0). vm_compute. discriminate. }
  assert (H1 : representable 1).
  { apply (round_integer 1). vm_compute. discriminate. }
  destruct (round_between 0 1 (p / inject_Z 100) H0 H1) as (r & Hr & Hr0 & Hr1).
  { split.
    - apply Qle_shift_div_l; [reflexivity|]. rewrite Qmult_0_l. exact Hp0.
    - apply Qle_shift_div_r; [reflexivity|]. rewrite Qmult_1_l. exact Hp100. }
  assert (Hdiv : div (Fin p) (lit 100) = Fin r) by exact Hr.
  rewrite Hdiv. cbn [mul].
  apply (round_between 0 d (r * d) H0 Hrep).
  split.
  - apply Qmult_le_0_compat; [exact Hr0|apply Qlt_le_weak, Hpos].
  - rewrite <- (Qmult_1_l d) at 2.
    apply Qmult_le_compat_r; [exact Hr1|apply Qlt_le_weak, Hpos].
Qed.

(** The theorem in the coarse arithmetic, for a click at a third of the bar
    of a song of 10 s: the quotient 1/3 is rounded. *)
Lemma newTime_within_duration_witness :
  exists t,
    Controls.newTime (R := fixed)
      {| Controls.isPlaying := true; Controls.currentTime := lit 0;
         Controls.duration := Fin 10; Controls.currentSong := Some song_a;
         Controls.seekingTime := None |}
      {| Controls.clientX := Fin 140; Controls.rect_left := Fin 100;
         Controls.rect_width := Fin 120 |} = Fin t
    /\ (0 <= t <= 10)%Q.
Proof.
  apply (newTime_within_duration (R := fixed) (N := fixed_nearest)
           _ 140 100 120 10).
  - reflexivity.
  - reflexivity.
  - eexists. split; [reflexivity|]. vm_compute. reflexivity.
  - reflexivity.
Defined.




(** ** The SoundCloud component *)

(** X5.  The SoundCloud handlers report only finite values: a time report
    carries a finite time that is not negative, and a duration is reported
    only when the widget's answer is finite and positive. *)
Theorem soundcloud_reports_are_finite `{R : Rounding} (p : SoundCloudPlayer.Props)
    (w : SoundCloudPlayer.Window) (currentPosition duration : number)
    (currentUrl : option string) :
  (forall t, SoundCloudPlayer.onTimeUpdate t
             ∈ fst (SoundCloudPlayer.PLAY_PROGRESS p w currentPosition) ->
     exists q, t = Fin q /\ (0 <= q)%Q)
  /\ (SoundCloudPlayer.PLAY_PROGRESS_duration p currentUrl duration <> [] ->
      exists q, duration = Fin q /\ (0 < q)%Q)
  /\ (SoundCloudPlayer.READY_duration duration <> [] ->
      exists q, duration = Fin q /\ (0 < q)%Q).
Proof.
  assert (Hpos : gt duration (lit 0) && isFinite duration = true ->
                 exists q, duration = Fin q /\ (0 < q)%Q).
  { destruct duration as [| | |q]; cbn; try discriminate.
    rewrite andb_true_r. intros H. exists q. split; [reflexivity|].
    apply negb_true_iff, not_true_iff_false in H.
    rewrite Qle_bool_iff in H. apply Qnot_le_lt in H. exact H. }
  split; [|split].
  - intros t. apply PLAY_PROGRESS_reports_finite.
  - unfold SoundCloudPlayer.PLAY_PROGRESS_duration.
    rewrite <- andb_assoc.
    destruct (bool_decide _); cbn [andb]; [|congruence].
    destruct (gt duration (lit 0) && isFinite duration) eqn:E; [|congruence].
    intros _. apply Hpos. reflexivity.
  - unfold SoundCloudPlayer.READY_duration.
    destruct (gt duration (lit 0) && isFinite duration) eqn:E; [|congruence].
    intros _. apply Hpos. reflexivity.
Qed.

(** X6.  Once a widget has become ready for a song, the effect run again for
    a song of the same URL reuses it: when no call throws, it makes no
    widget, binds no handler and loads no script, and ends by telling the
    widget to play or to pause as [isPlaying] says.  For a song of another
    URL the effect sends the existing widget no command. *)
Theorem mount_reuses_ready_widget `{R : Rounding} (p p' : SoundCloudPlayer.Props)
    (w : SoundCloudPlayer.Window) (env : SoundCloudEffects.Env) :
  SoundCloudEffects.window env = snd (SoundCloudPlayer.READY p w) ->
  (Store.url (SoundCloudPlayer.song p') = Store.url (SoundCloudPlayer.song p) ->
   SoundCloudEffects.throws_at env = None ->
   forallb (fun s => negb (initializes s)) (SoundCloudEffects.mount p' env) = true
   /\ last (SoundCloudEffects.mount p' env)
      = Some (if SoundCloudPlayer.isPlaying p'
              then SoundCloudEffects.call SoundCloudPlayer.widget_play
              else SoundCloudEffects.widget_pause))
  /\ (Store.url (SoundCloudPlayer.song p') <> Store.url (SoundCloudPlayer.song p) ->
      forallb (fun s => negb (commands_widget s)) (SoundCloudEffects.mount p' env)
      = true).
Proof.
  intros Hw. unfold SoundCloudEffects.mount. rewrite Hw.
  cbn [SoundCloudPlayer.READY snd SoundCloudPlayer.__soundcloudWidget
       SoundCloudPlayer.__soundcloudUrl andb].
  split.
  - intros Hurl Hthrow. rewrite Hurl, Hthrow.
    rewrite bool_decide_eq_true_2 by reflexivity.
    unfold SoundCloudEffects.reuse_calls. split.
    + destruct (gt _ _), (SoundCloudPlayer.isPlaying p'); reflexivity.
    + rewrite !last_app. destruct (SoundCloudPlayer.isPlaying p'); reflexivity.
  - intros Hurl. rewrite bool_decide_eq_false_2 by congruence.
    unfold SoundCloudEffects.initializePlayer.
    destruct (SoundCloudEffects.SC env), (SoundCloudEffects.iframe env); reflexivity.
Qed.

(** The theorem for the song the widget became ready for, now playing. *)
Lemma mount_reuses_ready_widget_witness :
  let p := {| SoundCloudPlayer.song := song_a; SoundCloudPlayer.volume := lit 80;
              SoundCloudPlayer.isPlaying := true;
              SoundCloudPlayer.currentTime := lit 30 |} in
  let w := {| SoundCloudPlayer.__soundcloudWidget := false;
              SoundCloudPlayer.__soundcloudUrl := None |} in
  let env := {| SoundCloudEffects.window := snd (SoundCloudPlayer.READY (R := exact) p w);
                SoundCloudEffects.SC := true; SoundCloudEffects.iframe := true;
                SoundCloudEffects.throws_at := None |} in
  last (SoundCloudEffects.mount (R := exact) p env)
  = Some (SoundCloudEffects.call SoundCloudPlayer.widget_play).
Proof.
  intros p w env.
  exact (proj2 (proj1 (mount_reuses_ready_widget (R := exact) p p w env eq_refl)
                  eq_refl eq_refl)).
Defined.

(** ** The feed fetch hook *)

(** X7.  A live call that receives a well-formed listing (no truthy
    [error], an array [data.children]) returns the songs parsed from the
    playable items; it replaces the queue when it was called without a
    cursor and appends when it was called with one, stores the listing's
    cursor ([null] when the listing has none or an empty one), and then
    clears the loading flag and the reference to its controller. *)
Theorem after_json_listing
    (filterPlayableSongs : list json -> list json)
    (parseSong : value -> option Store.Song)
    (t : RedditMusic.Task) (h : RedditMusic.Hook)
    (o d : gmap string json) (children : list json) :
  RedditMusic.abortController t ∉ RedditMusic.aborted h ->
  truthy (o !! "error") = false ->
  o !! "data" = Some (JObj d) ->
  d !! "children" = Some (JArr children) ->
  let parsed := RedditMusic.parse_items parseSong (filterPlayableSongs children) in
  RedditMusic.after_json filterPlayableSongs parseSong t h (Resolved (JObj o))
  = {| RedditMusic.hook := settled_hook h;
       RedditMusic.actions :=
         [ (if truthy_str (RedditMusic.after t)
            then RedditMusic.addSongs parsed else RedditMusic.setSongs parsed);
           RedditMusic.setAfter (if truthy (d !! "after") then d !! "after" else None);
           RedditMusic.setLoading false ];
       RedditMusic.next := RedditMusic.settled (RedditMusic.returned parsed) |}.
Proof.
  intros Hlive Herr Hdata Hch parsed.
  unfold RedditMusic.after_json. cbn [get]. rewrite Herr, Hdata. cbn [truthy get].
  rewrite Hch. unfold RedditMusic.return_.
  rewrite finally_live by exact Hlive. reflexivity.
Qed.

(** The theorem for a first page of two items, one of which does not parse. *)
Lemma after_json_listing_witness :
  let parseSong := fun v : value =>
    match v with Some (JStr "a") => Some song_a | _ => None end in
  let item := fun s : string => JObj (<[ "data" := JStr s ]> ∅) in
  let d := <[ "children" := JArr [item "a"; item "?"] ]>
             (<[ "after" := JStr "t3_a" ]> ∅) in
  let t := {| RedditMusic.target := RedditMusic.Subreddits ["listentothis"];
              RedditMusic.after := None; RedditMusic.abortController := 0 |} in
  let h := {| RedditMusic.abortControllerRef := Some 0; RedditMusic.aborted := ∅;
              RedditMusic.fresh := 1 |} in
  RedditMusic.actions
    (RedditMusic.after_json (fun l => l) parseSong t h
       (Resolved (JObj (<[ "data" := JObj d ]> ∅))))
  = [RedditMusic.setSongs [song_a]; RedditMusic.setAfter (Some (JStr "t3_a"));
     RedditMusic.setLoading false].
Proof.
  intros parseSong item d t h.
  rewrite (after_json_listing (fun l => l) parseSong t h
             (<[ "data" := JObj d ]> ∅) d [item "a"; item "?"]).
  - reflexivity.
  - cbn. set_solver.
  - reflexivity.
  - reflexivity.
  - reflexivity.
Defined.

(** X8.  However a live call is resumed, it either stays suspended, having
    called nothing, or settles in one of three ways, each ending with
    [setLoading(false)] and the controller reference cleared: it returns
    without touching the queue; it throws, after one error message when it
    is a subreddit fetch and after none when it is a search; or it returns
    the songs it has put into the queue by one [setSongs] or [addSongs]
    followed by [setAfter]. *)
Theorem live_call_settles_cleanly
    (filterPlayableSongs : list json -> list json)
    (parseSong : value -> option Store.Song)
    (t : RedditMusic.Task) (h : RedditMusic.Hook) (step : RedditMusic.Step) :
  RedditMusic.abortController t ∉ RedditMusic.aborted h ->
  resumed filterPlayableSongs parseSong t h step ->
  ((RedditMusic.next step = RedditMusic.await_text
    \/ RedditMusic.next step = RedditMusic.await_json)
   /\ RedditMusic.actions step = [] /\ RedditMusic.hook step = h)
  \/ (RedditMusic.hook step = settled_hook h
      /\ ((exists songs, RedditMusic.next step
                         = RedditMusic.settled (RedditMusic.returned songs)
            /\ (RedditMusic.actions step = [RedditMusic.setLoading false]
                \/ exists c,
                     RedditMusic.actions step
                     = [ (if truthy_str (RedditMusic.after t)
                          then RedditMusic.addSongs songs
                          else RedditMusic.setSongs songs);
                         RedditMusic.setAfter c; RedditMusic.setLoading false ]))
          \/ (exists e, RedditMusic.next step
                        = RedditMusic.settled (RedditMusic.threw e)
                /\ RedditMusic.actions step
                   = match RedditMusic.target t with
                     | RedditMusic.Search _ => [RedditMusic.setLoading false]
                     | RedditMusic.Subreddits subreddits =>
                         [RedditMusic.addMessage
                            (RedditMusic.failed_message subreddits
                               (RedditMusic.after t));
                          RedditMusic.setLoading false]
                     end))).
Proof.
  intros Hlive Hres.
  assert (Hthrow : forall e,
    let s := RedditMusic.throw_ t h e in
    RedditMusic.hook s = settled_hook h
    /\ ((exists songs, RedditMusic.next s
                       = RedditMusic.settled (RedditMusic.returned songs)
          /\ (RedditMusic.actions s = [RedditMusic.setLoading false]
              \/ exists c,
                   RedditMusic.actions s
                   = [ (if truthy_str (RedditMusic.after t)
                        then RedditMusic.addSongs songs
                        else RedditMusic.setSongs songs);
                       RedditMusic.setAfter c; RedditMusic.setLoading false ]))
        \/ (exists e', RedditMusic.next s
                       = RedditMusic.settled (RedditMusic.threw e')
              /\ RedditMusic.actions s
                 = match RedditMusic.target t with
                   | RedditMusic.Search _ => [RedditMusic.setLoading false]
                   | RedditMusic.Subreddits subreddits =>
                       [RedditMusic.addMessage
                          (RedditMusic.failed_message subreddits
                             (RedditMusic.after t));
                        RedditMusic.setLoading false]
                   end))).
  { intros e. unfold RedditMusic.throw_, RedditMusic.catch_.
    rewrite finally_live by exact Hlive.
    destruct (String.eqb (name e) "AbortError").
    - split; [reflexivity|]. left. exists []. split; [reflexivity|]. left. reflexivity.
    - destruct (RedditMusic.target t) eqn:Ht; cbn; rewrite ?Ht;
        (split; [reflexivity|]); right; exists e; split; reflexivity. }
  assert (Hret : forall acts songs,
    RedditMusic.return_ t h acts songs
    = {| RedditMusic.hook := settled_hook h;
         RedditMusic.actions := acts ++ [RedditMusic.setLoading false];
         RedditMusic.next := RedditMusic.settled (RedditMusic.returned songs) |}).
  { intros acts songs. unfold RedditMusic.return_.
    rewrite finally_live by exact Hlive. reflexivity. }
  destruct Hres as [o|o|o].
  - destruct o as [r|e]; cbn [RedditMusic.after_fetch]; [|right; apply Hthrow].
    rewrite bool_decide_eq_false_2 by exact Hlive.
    destruct (RedditMusic.ok r); cbn [negb]; left; auto.
  - right. destruct o as [s|e]; apply Hthrow.
  - right. destruct o as [data|e]; cbn [RedditMusic.after_json]; [|apply Hthrow].
    destruct (get "error" (Some data)) as [err|]; [|apply Hthrow].
    destruct (truthy err); [apply Hthrow|].
    destruct (if truthy (Some data) then _ else _) as [[d children]|];
      rewrite Hret; cbn [RedditMusic.hook RedditMusic.actions RedditMusic.next app].
    + split; [reflexivity|]. left. eexists. split; [reflexivity|]. right.
      eexists. reflexivity.
    + split; [reflexivity|]. left. exists []. split; [reflexivity|]. left. reflexivity.
Qed.

(** The theorem for a search whose response is not ok. *)
Lemma live_call_settles_cleanly_witness :
  let t := {| RedditMusic.target := RedditMusic.Search "jazz";
              RedditMusic.after := None; RedditMusic.abortController := 0 |} in
  let h := {| RedditMusic.abortControllerRef := Some 0; RedditMusic.aborted := ∅;
              RedditMusic.fresh := 1 |} in
  RedditMusic.hook (RedditMusic.after_text t h (Resolved "Bad Gateway"))
  = settled_hook h.
Proof.
  intros t h.
  destruct (live_call_settles_cleanly (fun l => l) (fun _ => None) t h
              (RedditMusic.after_text t h (Resolved "Bad Gateway")))
    as [(_ & Hacts & _)|[Hh _]].
  - cbn. set_solver.
  - apply resumed_text.
  - discriminate Hacts.
  - exact Hh.
Defined.

(** X9.  A call that has been superseded never clears the loading flag nor
    the controller reference, which by then belong to its successor: however
    it is resumed, it leaves the hook as it is and calls no [setLoading]. *)
Theorem superseded_call_keeps_loading
    (filterPlayableSongs : list json -> list json)
    (parseSong : value -> option Store.Song)
    (t : RedditMusic.Task) (h : RedditMusic.Hook) (step : RedditMusic.Step) :
  RedditMusic.abortController t ∈ RedditMusic.aborted h ->
  resumed filterPlayableSongs parseSong t h step ->
  RedditMusic.hook step = h
  /\ forall b, RedditMusic.setLoading b ∉ RedditMusic.actions step.
Proof.
  intros Hab Hres.
  assert (Hthrow : forall e,
    RedditMusic.hook (RedditMusic.throw_ t h e) = h
    /\ forall b, RedditMusic.setLoading b ∉ RedditMusic.actions (RedditMusic.throw_ t h e)).
  { intros e. unfold RedditMusic.throw_, RedditMusic.catch_.
    rewrite finally_aborted by exact Hab.
    destruct (String.eqb (name e) "AbortError"); [|destruct (RedditMusic.target t)];
      cbn; (split; [reflexivity|]); intros b; list_membership;
      intros H; decompose [or] H; try discriminate; try contradiction. }
  assert (Hret : forall acts songs,
    RedditMusic.return_ t h acts songs
    = {| RedditMusic.hook := h; RedditMusic.actions := acts ++ [];
         RedditMusic.next := RedditMusic.settled (RedditMusic.returned songs) |}).
  { intros acts songs. unfold RedditMusic.return_.
    rewrite finally_aborted by exact Hab. reflexivity. }
  destruct Hres as [o|o|o].
  - destruct o as [r|e]; cbn [RedditMusic.after_fetch]; [|apply Hthrow].
    rewrite bool_decide_eq_true_2 by exact Hab. rewrite Hret.
    split; [reflexivity|]. intros b H. inversion H.
  - destruct o as [s|e]; apply Hthrow.
  - destruct o as [data|e]; cbn [RedditMusic.after_json]; [|apply Hthrow].
    destruct (get "error" (Some data)) as [err|]; [|apply Hthrow].
    destruct (truthy err); [apply Hthrow|].
    destruct (if truthy (Some data) then _ else _) as [[d children]|];
      rewrite Hret; cbn [RedditMusic.hook RedditMusic.actions app];
      (split; [reflexivity|]); intros b;
      try destruct (truthy_str (RedditMusic.after t)); list_membership;
      intros H; decompose [or] H; try discriminate; try contradiction.
Qed.

(** The theorem for a superseded call whose body cannot be parsed. *)
Lemma superseded_call_keeps_loading_witness :
  let t := {| RedditMusic.target := RedditMusic.Subreddits ["listentothis"];
              RedditMusic.after := None; RedditMusic.abortController := 0 |} in
  let h := {| RedditMusic.abortControllerRef := Some 1; RedditMusic.aborted := {[ 0 ]};
              RedditMusic.fresh := 2 |} in
  RedditMusic.hook
    (RedditMusic.after_json (fun l => l) (fun _ => None) t h (Rejected SyntaxError))
  = h.
Proof.
  intros t h.
  refine (proj1 (superseded_call_keeps_loading (fun l => l) (fun _ => None) t h _ _ _)).
  - cbn. set_solver.
  - apply resumed_json.
Defined.



Lemma start_hook (v : RedditMusic.StoreView) (t : RedditMusic.Target)
    (after : option string) (h : RedditMusic.Hook) :
  let st := RedditMusic.start v t after h in
  RedditMusic.abortController (RedditMusic.task st) = RedditMusic.fresh h
  /\ RedditMusic.abortControllerRef (RedditMusic.started_hook st)
     = Some (RedditMusic.fresh h)
  /\ RedditMusic.fresh (RedditMusic.started_hook st) = S (RedditMusic.fresh h)
  /\ (forall c, c ∈ RedditMusic.aborted (RedditMusic.started_hook st)
              <-> c ∈ RedditMusic.aborted h
                  \/ RedditMusic.abortControllerRef h = Some c).
Proof.
  unfold RedditMusic.start, RedditMusic.abort_ongoing.
  destruct (RedditMusic.abortControllerRef h) as [c0|]; cbn;
    repeat split; try reflexivity; intros.
  - rewrite elem_of_union, elem_of_singleton in *.
    destruct H as [->|H]; [right; reflexivity|left; exact H].
  - rewrite elem_of_union, elem_of_singleton.
    destruct H as [H|H]; [right; exact H|left; congruence].
  - left. exact H.
  - destruct H as [H|H]; [exact H|discriminate].
Qed.

Lemma start_all_invariant (v : RedditMusic.StoreView)
    (calls : list (RedditMusic.Target * option string)) :
  forall h, hook_ok h ->
    hook_ok (fst (start_all v calls h))
    /\ (forall c, c < RedditMusic.fresh h ->
          (c ∈ RedditMusic.aborted (fst (start_all v calls h))
           <-> c ∈ RedditMusic.aborted h
               \/ (RedditMusic.abortControllerRef h = Some c /\ calls <> [])))
    /\ (forall i t, snd (start_all v calls h) !! i = Some t ->
          RedditMusic.fresh h <= RedditMusic.abortController t
          /\ (RedditMusic.abortController t
                ∈ RedditMusic.aborted (fst (start_all v calls h))
              <-> S i < length (snd (start_all v calls h)))).
Proof.
  induction calls as [|[t after] rest IH]; intros h Hok.
  - cbn. split; [exact Hok|]. split.
    + intros c _. split; [auto|]. intros [H|[_ H]]; [exact H|congruence].
    + intros i t' H. rewrite lookup_nil in H. discriminate.
  - cbn [start_all].
    pose proof (start_hook v t after h) as Hst. cbv zeta in Hst.
    remember (RedditMusic.start v t after h) as st eqn:Est. clear Est.
    destruct Hst as (Hc & Href & Hfresh & Hab).
    assert (Hok1 : hook_ok (RedditMusic.started_hook st)).
    { destruct Hok as [Hok1 Hok2]. split.
      - intros c Hc'. rewrite Hfresh. apply Hab in Hc' as [Hc'|Hc'].
        + specialize (Hok1 c Hc'). lia.
        + specialize (Hok2 c Hc'). lia.
      - intros c Hc'. rewrite Href in Hc'. injection Hc' as <-. rewrite Hfresh. lia. }
    destruct (IH _ Hok1) as (IH1 & IH2 & IH3).
    destruct (start_all v rest (RedditMusic.started_hook st)) as [h' ts] eqn:E.
    cbn [fst snd] in *.
    split; [exact IH1|]. split.
    + intros c Hlt. rewrite IH2 by (rewrite Hfresh; lia). rewrite Hab, Href.
      split.
      * intros [[H|H]|[H _]]; [left; exact H|right; split; [exact H|discriminate]|].
        injection H as <-. lia.
      * intros [H|[H _]]; left; [left; exact H|right; exact H].
    + intros [|i] t' Hi; cbn in Hi.
      * injection Hi as <-. rewrite Hc. split; [lia|].
        rewrite IH2 by (rewrite Hfresh; lia). rewrite Hab, Href.
        cbn [length]. split.
        -- intros [[H|H]|[_ H]].
           ++ destruct Hok as [Hok1' _]. specialize (Hok1' _ H). lia.
           ++ destruct Hok as [_ Hok2']. specialize (Hok2' _ H). lia.
           ++ destruct rest; [congruence|].
              assert (Hl : length ts = length (p :: rest)).
              { clear -E. revert E. generalize (RedditMusic.started_hook st).
                revert h' ts. induction (p :: rest) as [|[t0 a0] l IHl];
                  intros h' ts h0 E; cbn in E.
                - injection E as _ <-. reflexivity.
                - destruct (start_all v l _) as [h2 ts2] eqn:E2.
                  injection E as _ <-. cbn. f_equal. eapply IHl. exact E2. }
              rewrite Hl. cbn. lia.
        -- intros Hlen. right. split; [reflexivity|].
           destruct rest; [|discriminate]. cbn in E. injection E as _ <-.
           cbn in Hlen. lia.
      * destruct (IH3 i t' Hi) as [Hge Hiff]. rewrite Hfresh in Hge.
        split; [lia|]. rewrite Hiff. cbn [length]. lia.
Qed.

(** X11.  At most one request is live.  When fetches are started one after
    the other from a hook whose controllers are all older than its next one,
    every call started but the last has its signal aborted, and the last has
    not. *)
Theorem only_last_started_is_live (v : RedditMusic.StoreView)
    (calls : list (RedditMusic.Target * option string)) (h : RedditMusic.Hook)
    (i : nat) (t : RedditMusic.Task) :
  hook_ok h ->
  snd (start_all v calls h) !! i = Some t ->
  RedditMusic.abortController t ∈ RedditMusic.aborted (fst (start_all v calls h))
  <-> S i < length (snd (start_all v calls h)).
Proof.
  intros Hok Hi.
  destruct (start_all_invariant v calls h Hok) as (_ & _ & H).
  apply (H i t Hi).
Qed.

(** The theorem for a subreddit fetch followed by a search and another
    subreddit fetch: the first call is aborted. *)
Lemma only_last_started_is_live_witness :
  let v := {| RedditMusic.selectedSubreddits := ["listentothis"];
              RedditMusic.sortMethod := "hot"; RedditMusic.topMethod := "week";
              RedditMusic.searchQuery := "" |} in
  let h := {| RedditMusic.abortControllerRef := None; RedditMusic.aborted := ∅;
              RedditMusic.fresh := 0 |} in
  let calls := [(RedditMusic.Subreddits ["listentothis"], None);
                (RedditMusic.Search "jazz", None);
                (RedditMusic.Subreddits ["jazz"], Some "t3_a")] in
  0 ∈ RedditMusic.aborted (fst (start_all v calls h)).
Proof.
  intros v h calls.
  apply (only_last_started_is_live v calls h 0
           {| RedditMusic.target := RedditMusic.Subreddits ["listentothis"];
              RedditMusic.after := None; RedditMusic.abortController := 0 |}).
  - split; [intros c Hc; set_solver|intros c Hc; discriminate].
  - reflexivity.
  - cbn. lia.
Defined.

(** X23.  Fetch B is started while fetch A is in flight.  Then A's controller
    is aborted; and when A is resumed afterwards by the head of its response,
    or by the [AbortError] with which its cancelled fetch or body read is
    rejected, it returns the empty list, throws nothing, calls no store
    action and leaves the hook's state alone. *)
Theorem superseded_fetch_is_discarded
    (filterPlayableSongs : list json -> list json)
    (parseSong : value -> option Store.Song)
    (v v' : RedditMusic.StoreView) (tA tB : RedditMusic.Target)
    (afterA afterB : option string) (h0 h : RedditMusic.Hook)
    (s : Store.State) (step : RedditMusic.Step) :
  let A := RedditMusic.start v tA afterA h0 in
  let B := RedditMusic.start v' tB afterB (RedditMusic.started_hook A) in
  RedditMusic.aborted (RedditMusic.started_hook B) ⊆ RedditMusic.aborted h ->
  resumed_cancelled filterPlayableSongs parseSong (RedditMusic.task A) h step ->
  RedditMusic.abortController (RedditMusic.task A)
    ∈ RedditMusic.aborted (RedditMusic.started_hook B)
  /\ step = {| RedditMusic.hook := h; RedditMusic.actions := [];
               RedditMusic.next := RedditMusic.settled (RedditMusic.returned []) |}
  /\ RedditMusic.run (RedditMusic.actions step) s = s.
Proof.
  intros A B Hsub Hres.
  assert (HA : RedditMusic.abortController (RedditMusic.task A)
               ∈ RedditMusic.aborted (RedditMusic.started_hook B)).
  { apply start_aborts_ongoing. apply (start_registers v tA afterA h0). }
  assert (Hh : RedditMusic.abortController (RedditMusic.task A)
               ∈ RedditMusic.aborted h) by (apply Hsub, HA).
  split; [exact HA|].
  assert (Hstep : step = {| RedditMusic.hook := h; RedditMusic.actions := [];
                            RedditMusic.next :=
                              RedditMusic.settled (RedditMusic.returned []) |}).
  { destruct Hres as [r|e He|e He|e He]; cbn [RedditMusic.after_fetch
      RedditMusic.after_text RedditMusic.after_json].
    - rewrite bool_decide_eq_true_2 by exact Hh.
      unfold RedditMusic.return_. rewrite finally_aborted by exact Hh.
      reflexivity.
    - apply throw_AbortError_aborted; assumption.
    - apply throw_AbortError_aborted; assumption.
    - apply throw_AbortError_aborted; assumption. }
  split; [exact Hstep|]. rewrite Hstep. reflexivity.
Qed.

(** The theorem for a subreddit fetch superseded by a search, when the first
    fetch's response arrives. *)
Lemma superseded_fetch_is_discarded_witness :
  let v := {| RedditMusic.selectedSubreddits := ["listentothis"];
              RedditMusic.sortMethod := "hot"; RedditMusic.topMethod := "week";
              RedditMusic.searchQuery := "" |} in
  let h0 := {| RedditMusic.abortControllerRef := None;
               RedditMusic.aborted := ∅; RedditMusic.fresh := 0 |} in
  let A := RedditMusic.start v (RedditMusic.Subreddits ["listentothis"]) None h0 in
  let B := RedditMusic.start v (RedditMusic.Search "jazz") None
             (RedditMusic.started_hook A) in
  RedditMusic.after_fetch (RedditMusic.task A) (RedditMusic.started_hook B)
    (Resolved {| RedditMusic.ok := true; RedditMusic.status := 200 |})
  = {| RedditMusic.hook := RedditMusic.started_hook B; RedditMusic.actions := [];
       RedditMusic.next := RedditMusic.settled (RedditMusic.returned []) |}.
Proof.
  cbv zeta.
  refine (proj1 (proj2 (superseded_fetch_is_discarded (fun l => l) (fun _ => None)
            _ _ _ _ _ _ _ _ store_a _ _ _))).
  - reflexivity.
  - apply response_arrives.
Defined.

(** ** The initialisation *)

Lemma rev_app_ends (s acc : string) :
  first_char (String.rev_app s acc)
  = match last_char s with Some c => Some c | None => first_char acc end
  /\ last_char (String.rev_app s acc)
     = match last_char acc with Some c => Some c | None => first_char s end.
Proof.
  revert acc. induction s as [|a s IH]; intros acc; cbn [String.rev_app].
  - cbn. destruct (last_char acc); auto.
  - destruct (IH (String a acc)) as [IH1 IH2]. rewrite IH1, IH2. cbn.
    destruct (last_char s), (last_char acc); auto.
Qed.

Lemma rev_ends (s : string) :
  first_char (String.rev s) = last_char s
  /\ last_char (String.rev s) = first_char s.
Proof.
  unfold String.rev. destruct (rev_app_ends s "") as [H1 H2].
  rewrite H1, H2. cbn. destruct (last_char s); auto.
Qed.

Lemma trimStart_first (s : string) :
  not_space (first_char (InitializeApp.trimStart s)).
Proof.
  induction s as [|c s IH]; cbn; [exact I|].
  destruct (InitializeApp.is_space c) eqn:E; [exact IH|exact E].
Qed.

Lemma trimStart_last (s : string) :
  last_char (InitializeApp.trimStart s) = None
  \/ last_char (InitializeApp.trimStart s) = last_char s.
Proof.
  induction s as [|c s IH]; cbn [InitializeApp.trimStart]; [left; reflexivity|].
  destruct (InitializeApp.is_space c); [|right; reflexivity].
  destruct IH as [IH|IH]; [left; exact IH|].
  destruct (last_char s) as [d|] eqn:E.
  - right. rewrite IH. cbn. rewrite E. reflexivity.
  - left. exact IH.
Qed.

Lemma trim_ends (s : string) :
  not_space (first_char (InitializeApp.trim s))
  /\ not_space (last_char (InitializeApp.trim s)).
Proof.
  unfold InitializeApp.trim.
  destruct (rev_ends (InitializeApp.trimStart
                        (String.rev (InitializeApp.trimStart s)))) as [H1 H2].
  rewrite H1, H2. split; [|apply trimStart_first].
  destruct (trimStart_last (String.rev (InitializeApp.trimStart s))) as [H|H];
    rewrite H; [exact I|].
  rewrite (proj2 (rev_ends _)). apply trimStart_first.
Qed.

Lemma lower_idempotent (c : ascii) :
  InitializeApp.lower (InitializeApp.lower c) = InitializeApp.lower c.
Proof. destruct c as [[] [] [] [] [] [] [] []]; vm_compute; reflexivity. Qed.

Lemma lower_space (c : ascii) :
  InitializeApp.is_space (InitializeApp.lower c) = InitializeApp.is_space c.
Proof. destruct c as [[] [] [] [] [] [] [] []]; vm_compute; reflexivity. Qed.

Lemma toLowerCase_idempotent (s : string) :
  InitializeApp.toLowerCase (InitializeApp.toLowerCase s)
  = InitializeApp.toLowerCase s.
Proof.
  induction s as [|c s IH]; cbn; [reflexivity|].
  rewrite lower_idempotent, IH. reflexivity.
Qed.

Lemma toLowerCase_ends (s : string) :
  first_char (InitializeApp.toLowerCase s) = InitializeApp.lower <$> first_char s
  /\ last_char (InitializeApp.toLowerCase s) = InitializeApp.lower <$> last_char s.
Proof.
  split; [destruct s; reflexivity|].
  induction s as [|c s IH]; cbn; [reflexivity|].
  rewrite IH. destruct (last_char s); reflexivity.
Qed.

(** X12.  Every subreddit name read from a path or from the [r] parameter is
    normalised: it is not empty, it is in lower case, and it neither begins
    nor ends with white space. *)
Theorem parse_subs_normalised (s x : string) :
  x ∈ InitializeApp.parse_subs s ->
  x <> ""
  /\ InitializeApp.toLowerCase x = x
  /\ not_space (first_char x)
  /\ not_space (last_char x).
Proof.
  unfold InitializeApp.parse_subs. intros H.
  apply list_elem_of_In, filter_In in H as [H Hne].
  apply in_map_iff in H as (y & <- & _).
  split; [|split; [|split]].
  - intros E. rewrite E in Hne. discriminate.
  - apply toLowerCase_idempotent.
  - rewrite (proj1 (toLowerCase_ends _)).
    pose proof (proj1 (trim_ends y)) as Ht.
    destruct (first_char (InitializeApp.trim y)) as [c|]; [|exact I].
    cbn in *. rewrite lower_space. exact Ht.
  - rewrite (proj2 (toLowerCase_ends _)).
    pose proof (proj2 (trim_ends y)) as Ht.
    destruct (last_char (InitializeApp.trim y)) as [c|]; [|exact I].
    cbn in *. rewrite lower_space. exact Ht.
Qed.

(** The theorem for the first name of [" Music +listentothis"]. *)
Lemma parse_subs_normalised_witness :
  "music" <> ""
  /\ InitializeApp.toLowerCase "music" = "music"
  /\ not_space (first_char "music")
  /\ not_space (last_char "music").
Proof.
  apply (parse_subs_normalised " Music +listentothis" "music").
  vm_compute. apply list_elem_of_here.
Defined.

(** X13.  The first run of the initialisation fetches exactly one list of
    subreddits, which is never empty, and a later run does nothing.  The
    subreddits named by the path are fetched whatever the [r] parameter and
    the saved selection are; and the selection is left as it is only when it
    is the saved one that is fetched. *)
Theorem initialize_fetches_once (e : InitializeApp.Env) :
  InitializeApp.initialize true e = (true, [])
  /\ fst (InitializeApp.initialize false e) = true
  /\ (exists subs, subs <> []
        /\ fetched (snd (InitializeApp.initialize false e)) = [subs]
        /\ (snd (InitializeApp.initialize false e)
            = [InitializeApp.setSelectedSubreddits subs;
               InitializeApp.fetchFromSubreddits subs]
            \/ (subs = InitializeApp.selectedSubreddits e
                /\ snd (InitializeApp.initialize false e)
                   = [InitializeApp.fetchFromSubreddits subs])))
  /\ (forall subs,
        InitializeApp.named (InitializeApp.pathMatch (InitializeApp.pathname e))
        = Some subs ->
        fetched (snd (InitializeApp.initialize false e)) = [subs]).
Proof.
  assert (Hnamed : forall src subs, InitializeApp.named src = Some subs -> subs <> []).
  { intros [s|] subs; cbn; [|discriminate].
    destruct (bool_decide (0 < length (InitializeApp.parse_subs s))) eqn:E;
      [|discriminate].
    intros H. injection H as <-. apply bool_decide_eq_true in E.
    intros E'. rewrite E' in E. cbn in E. lia. }
  split; [reflexivity|]. unfold InitializeApp.initialize.
  destruct (InitializeApp.named (InitializeApp.pathMatch _)) as [s1|] eqn:E1.
  { split; [reflexivity|]. split.
    - exists s1. split; [apply (Hnamed _ _ E1)|]. split; [reflexivity|].
      left. reflexivity.
    - intros subs H. injection H as <-. reflexivity. }
  destruct (InitializeApp.named (if truthy_str _ then _ else _)) as [s2|] eqn:E2.
  { split; [reflexivity|]. split; [|discriminate].
    exists s2. split; [apply (Hnamed _ _ E2)|]. split; [reflexivity|].
    left. reflexivity. }
  destruct (bool_decide (0 < length (InitializeApp.selectedSubreddits e))) eqn:E3.
  - split; [reflexivity|]. split; [|discriminate].
    exists (InitializeApp.selectedSubreddits e).
    apply bool_decide_eq_true in E3.
    split; [intros E'; rewrite E' in E3; cbn in E3; lia|].
    split; [reflexivity|]. right. split; reflexivity.
  - split; [reflexivity|]. split; [|discriminate].
    exists ["listentothis"]. split; [discriminate|]. split; [reflexivity|].
    left. reflexivity.
Qed.

(** ** The keyboard shortcuts *)

(** [Math.min(100, volume + 10)] and [Math.max(0, volume - 10)] stay in range. *)
Lemma volume_up_in_range {R : Rounding} {N : Nearest R} (volume : Q) :
  (0 <= volume <= 100)%Q ->
  exists q, Math_min (lit 100) (Shortcuts.add (Fin volume) (lit 10)) = Fin q
            /\ (0 <= q <= 100)%Q.
Proof.
  intros [H0 H100]. cbn [Shortcuts.add lit].
  assert (Hz : representable 0).
  { apply (round_integer 0). vm_compute. discriminate. }
  destruct (round_above 0 (volume + inject_Z 10) Hz) as [E|(t & E & Ht)].
  { apply Qle_trans with volume; [exact H0|].
    apply Qle_trans with (volume + 0)%Q;
      [rewrite Qplus_0_r; apply Qle_refl|apply Qplus_le_r; discriminate]. }
  - rewrite E. exists (inject_Z 100). split; [reflexivity|]. split; discriminate.
  - rewrite E. cbn.
    destruct (Qle_bool (inject_Z 100) t) eqn:E100; cbn;
      eexists; (split; [reflexivity|]).
    + split; discriminate.
    + split; [exact Ht|].
      apply not_true_iff_false in E100. rewrite Qle_bool_iff in E100.
      apply Qnot_le_lt in E100. apply Qlt_le_weak, E100.
Qed.

Lemma volume_down_in_range {R : Rounding} {N : Nearest R} (volume : Q) :
  (0 <= volume <= 100)%Q ->
  exists q, Math_max (lit 0) (sub (Fin volume) (lit 10)) = Fin q
            /\ (0 <= q <= 100)%Q.
Proof.
  intros [H0 H100]. cbn [sub lit].
  assert (Hz : representable 100).
  { apply (round_integer 100). vm_compute. discriminate. }
  destruct (round_below 100 (volume - inject_Z 10) Hz) as [E|(t & E & Ht)].
  { apply Qle_trans with volume; [|exact H100].
    apply Qle_trans with (volume + 0)%Q;
      [unfold Qminus; apply Qplus_le_r; discriminate
      |rewrite Qplus_0_r; apply Qle_refl]. }
  - rewrite E. exists (inject_Z 0). split; [reflexivity|]. split; discriminate.
  - rewrite E. cbn.
    destruct (Qle_bool t (inject_Z 0)) eqn:E0; cbn;
      eexists; (split; [reflexivity|]).
    + split; discriminate.
    + split; [|exact Ht].
      apply not_true_iff_false in E0. rewrite Qle_bool_iff in E0.
      apply Qnot_le_lt in E0. apply Qlt_le_weak, E0.
Qed.

(** X14.  In every arithmetic that rounds to nearest, that of doubles
    included, and with a volume between 0 and 100, no shortcut sets a volume
    outside that range; and a key pressed in an input, a text area or an
    editable element triggers nothing. *)
Theorem handleKeyDown_volume_in_range {R : Rounding} {N : Nearest R}
    (volume : Q) (e : Shortcuts.KeyEvent) :
  (0 <= volume <= 100)%Q ->
  (forall v, Shortcuts.setVolume v ∈ Shortcuts.handleKeyDown (Fin volume) e ->
     exists q, v = Fin q /\ (0 <= q <= 100)%Q)
  /\ (Shortcuts.tagName e = "INPUT" \/ Shortcuts.tagName e = "TEXTAREA"
      \/ Shortcuts.isContentEditable e = true ->
      Shortcuts.handleKeyDown (Fin volume) e = []).
Proof.
  intros Hv. split.
  - intros v. unfold Shortcuts.handleKeyDown.
    destruct (_ || _ || _); [intros H; inversion H|].
    destruct (String.eqb (Shortcuts.code e) "Space");
      [list_membership; intros H; decompose [or] H; try discriminate; contradiction|].
    destruct (_ || _); [|intros H; inversion H].
    repeat (destruct (String.eqb (Shortcuts.code e) _);
            [list_membership; intros H; decompose [or] H; try discriminate;
             try contradiction;
             match goal with
             | E : Shortcuts.setVolume _ = Shortcuts.setVolume _ |- _ =>
                 injection E as ->
             end;
             first [apply (volume_up_in_range volume Hv)
                   |apply (volume_down_in_range volume Hv)]|]).
    intros H; inversion H.
  - unfold Shortcuts.handleKeyDown. intros [-> |[-> | ->]]; cbn;
      rewrite ?orb_true_r; reflexivity.
Qed.

(** The theorem in the coarse arithmetic for Ctrl+ArrowUp at volume 95.5. *)
Lemma handleKeyDown_volume_in_range_witness :
  exists q,
    Math_min (lit 100) (Shortcuts.add (R := fixed) (Fin (9550 # 100)) (lit 10)) = Fin q
    /\ (0 <= q <= 100)%Q.
Proof.
  refine (proj1 (handleKeyDown_volume_in_range (R := fixed) (N := fixed_nearest)
            (9550 # 100)
            {| Shortcuts.tagName := "BODY"; Shortcuts.isContentEditable := false;
               Shortcuts.code := "ArrowUp"; Shortcuts.ctrlKey := true;
               Shortcuts.metaKey := false |} _) _ _).
  - split; discriminate.
  - cbn. list_membership. auto.
Defined.

(** ** The proxy's cache *)

Lemma catch_not_data (e : error) (j : json) :
  Proxy.body (Proxy.catch_ e) <> Proxy.data j.
Proof.
  destruct (catch_is_failure e) as (msg & H & _). rewrite H. discriminate.
Qed.

(** What a request that reaches the upstream does to the cache: nothing, or,
    with a reply of status 200, one entry written at the request's URL. *)
Lemma respond_cache (cacheKey : string) (written_at : Z)
    (cache : gmap string (json * Z)) (x : Proxy.Exit) :
  (fst (Proxy.respond cacheKey written_at cache x) = cache
   /\ exists msg, Proxy.body (snd (Proxy.respond cacheKey written_at cache x))
                  = Proxy.failure msg)
  \/ exists j,
       Proxy.respond cacheKey written_at cache x
       = (<[ cacheKey := (j, written_at) ]> cache,
          {| Proxy.reply_status := 200; Proxy.body := Proxy.data j |}).
Proof.
  assert (Hcatch : forall e, exists msg, Proxy.body (Proxy.catch_ e) = Proxy.failure msg).
  { intros e. destruct (catch_is_failure e) as (msg & H & _). eauto. }
  unfold Proxy.respond. destruct x as [l|e l]; [|left; split; [reflexivity|apply Hcatch]].
  destruct (Proxy.response l) as [r|]; [|left; split; [reflexivity|apply Hcatch]].
  destruct (Proxy.ok r); cbn [negb].
  - destruct (Proxy.json_ r) as [j|e]; [|left; split; [reflexivity|apply Hcatch]].
    destruct (negb (truthy (Some j)) || negb (typeof_object (Some j)));
      [left; split; [reflexivity|eexists; reflexivity]|right; exists j; reflexivity].
  - destruct (Proxy.text r) as [t|e]; [|left; split; [reflexivity|apply Hcatch]].
    unfold Proxy.NextResponse_json.
    destruct (negb _); [left; split; [reflexivity|apply Hcatch]|].
    destruct (bool_decide _); left; (split; [reflexivity|]);
      [apply Hcatch|eexists; reflexivity].
Qed.

(** X15.  The cache round trip.  When a request that reached the upstream
    was answered with data, a later request for the same path and query is
    answered with the same data and status 200 as long as it comes less than
    60 s after the entry was written, whatever the upstream would answer; and
    it leaves the cache as it is. *)
Theorem cached_reply_is_served (q1 q2 : Proxy.Request)
    (cache : gmap string (json * Z)) (j : json) :
  miss q1 cache ->
  Proxy.body (snd (Proxy.GET q1 cache)) = Proxy.data j ->
  Proxy.method q2 <> "OPTIONS" ->
  Proxy.pathSegments q2 = Proxy.pathSegments q1 ->
  Proxy.query q2 = Proxy.query q1 ->
  (Proxy.read_at q2 - Proxy.written_at q1 < 60000)%Z ->
  Proxy.GET q2 (fst (Proxy.GET q1 cache))
  = (fst (Proxy.GET q1 cache),
     {| Proxy.reply_status := 200; Proxy.body := Proxy.data j |}).
Proof.
  intros Hmiss Hbody Hm Hp Hq Ht.
  rewrite (GET_miss _ _ Hmiss) in *.
  destruct (respond_cache (Proxy.redditUrl (Proxy.pathSegments q1) (Proxy.query q1))
              (Proxy.written_at q1) cache
              (Proxy.retry (Proxy.upstream q1) 3 0 Proxy.start))
    as [[_ (msg & Hf)]|(j' & Hj)].
  { rewrite Hf in Hbody. discriminate. }
  rewrite Hj in *. cbn [fst snd Proxy.body] in *. injection Hbody as ->.
  unfold Proxy.GET. rewrite (proj2 (String.eqb_neq _ _) Hm), Hp, Hq.
  rewrite lookup_insert_eq.
  rewrite bool_decide_eq_true_2; [reflexivity|].
  unfold Proxy.CACHE_TTL. lia.
Qed.

(** The theorem for the listing answered at once, asked for again 59 s
    later from an upstream that no longer answers. *)
Lemma cached_reply_is_served_witness :
  let q2 := {| Proxy.method := "GET";
               Proxy.pathSegments := ["r"; "listentothis"; "hot.json"];
               Proxy.query := "limit=100";
               Proxy.upstream := fun _ =>
                 {| Proxy.latency := None; Proxy.result := Rejected AbortError |};
               Proxy.read_at := 60000; Proxy.written_at := 90000 |} in
  snd (Proxy.GET q2 (fst (Proxy.GET (request_after_403s 0) ∅)))
  = {| Proxy.reply_status := 200; Proxy.body := Proxy.data (JObj ∅) |}.
Proof.
  intros q2.
  rewrite (cached_reply_is_served (request_after_403s 0) q2 ∅ (JObj ∅)).
  - reflexivity.
  - apply request_after_403s_miss.
  - rewrite (GET_miss _ _ (request_after_403s_miss 0)). vm_compute. reflexivity.
  - discriminate.
  - reflexivity.
  - reflexivity.
  - vm_compute. reflexivity.
Defined.

(** X16.  The proxy never caches an error and never touches the entry of
    another URL: a request leaves the cache as it is unless it is answered
    with status 200 by the upstream, and then the only entry written is that
    of the request's own URL. *)
Theorem cache_written_only_on_success (q : Proxy.Request)
    (cache : gmap string (json * Z)) :
  (forall msg, Proxy.body (snd (Proxy.GET q cache)) = Proxy.failure msg ->
     fst (Proxy.GET q cache) = cache)
  /\ (forall k, k <> Proxy.redditUrl (Proxy.pathSegments q) (Proxy.query q) ->
        fst (Proxy.GET q cache) !! k = cache !! k)
  /\ (fst (Proxy.GET q cache) = cache
      \/ exists j,
           snd (Proxy.GET q cache)
           = {| Proxy.reply_status := 200; Proxy.body := Proxy.data j |}
           /\ fst (Proxy.GET q cache)
              = <[ Proxy.redditUrl (Proxy.pathSegments q) (Proxy.query q)
                   := (j, Proxy.written_at q) ]> cache).
Proof.
  assert (H : fst (Proxy.GET q cache) = cache
              /\ (forall msg, Proxy.body (snd (Proxy.GET q cache)) = Proxy.failure msg ->
                    fst (Proxy.GET q cache) = cache)
              \/ exists j,
                   Proxy.GET q cache
                   = (<[ Proxy.redditUrl (Proxy.pathSegments q) (Proxy.query q)
                         := (j, Proxy.written_at q) ]> cache,
                      {| Proxy.reply_status := 200; Proxy.body := Proxy.data j |})).
  { unfold Proxy.GET. destruct (String.eqb _ _); [left; split; reflexivity|].
    set (k := Proxy.redditUrl _ _).
    destruct (respond_cache k (Proxy.written_at q) cache
                (Proxy.retry (Proxy.upstream q) 3 0 Proxy.start))
      as [[Hc _]|(j & Hj)].
    - destruct (cache !! k) as [[cached ts]|];
        [destruct (bool_decide _); [left; split; reflexivity|]|];
        left; split; try exact Hc; intros; exact Hc.
    - destruct (cache !! k) as [[cached ts]|];
        [destruct (bool_decide _); [left; split; reflexivity|]|];
        right; exists j; exact Hj. }
  destruct H as [[Hc Hf]|(j & Hj)].
  - split; [exact Hf|]. split; [intros k _; rewrite Hc; reflexivity|left; exact Hc].
  - rewrite Hj. cbn [fst snd Proxy.body]. split; [discriminate|]. split.
    + intros k Hk. apply lookup_insert_ne. congruence.
    + right. exists j. split; reflexivity.
Qed.

(** ** The proxy's URL *)

Lemma append_cons (x : ascii) (a b : string) : String x a +:+ b = String x (a +:+ b).
Proof. reflexivity. Qed.
Lemma append_assoc (a b c : string) : (a +:+ b) +:+ c = a +:+ (b +:+ c).
Proof. induction a as [|x a IH]; [reflexivity|]. rewrite !append_cons, IH. reflexivity. Qed.
Lemma prefix_append (a b : string) : String.prefix a (a +:+ b) = true.
Proof.
  induction a as [|c a IH]; [destruct b; reflexivity|].
  rewrite append_cons. cbn [String.prefix].
  destruct (ascii_dec c c); [exact IH|congruence].
Qed.
Lemma length_append (a b : string) :
  String.length (a +:+ b) = String.length a + String.length b.
Proof. induction a as [|c a IH]; [reflexivity|]. rewrite append_cons. cbn [String.length]. rewrite IH. reflexivity. Qed.
Lemma substring_append (a b : string) :
  String.substring 0 (String.length a) (a +:+ b) = a.
Proof.
  induction a as [|c a IH]; [destruct b; reflexivity|].
  rewrite append_cons. cbn [String.length String.substring]. rewrite IH. reflexivity.
Qed.
Lemma concat_last (sep : string) (init : list string) (last suffix : string) :
  String.concat sep (init ++ [last +:+ suffix])
  = String.concat sep (init ++ [last]) +:+ suffix.
Proof.
  induction init as [|x init IH]; [reflexivity|].
  destruct init as [|y init].
  - cbn [app String.concat]. rewrite !append_assoc. reflexivity.
  - cbn [app String.concat] in *. rewrite IH, !append_assoc. reflexivity.
Qed.

Lemma rev_app_append (p s acc : string) :
  String.rev_app (p +:+ s) acc = String.rev_app s (String.rev_app p acc).
Proof.
  revert acc. induction p as [|c p IH]; intros acc; [reflexivity|].
  rewrite append_cons. cbn [String.rev_app]. apply IH.
Qed.

Lemma rev_app_acc_append (s a b : string) :
  String.rev_app s (a +:+ b) = String.rev_app s a +:+ b.
Proof.
  revert a. induction s as [|c s IH]; intros a; cbn [String.rev_app]; [reflexivity|].
  apply (IH (String c a)).
Qed.

Lemma rev_app_acc (s acc : string) :
  String.rev_app s acc = String.rev_app s "" +:+ acc.
Proof. apply (rev_app_acc_append s "" acc). Qed.

(** X17.  A path is sent to the same upstream URL, and so to the same cache
    entry, with and without the [.json] suffix the hook adds: the proxy
    strips the suffix before it appends its own. *)
Theorem redditUrl_ignores_json_suffix (init : list string) (last query : string) :
  ends_in_json (String.concat "/" (init ++ [last])) = false ->
  Proxy.redditUrl (init ++ [last +:+ ".json"]) query
  = Proxy.redditUrl (init ++ [last]) query
  /\ Proxy.redditUrl (init ++ [last]) query
     = "https://www.reddit.com/" +:+ String.concat "/" (init ++ [last]) +:+ ".json"
       +:+ (if negb (String.eqb query "") then "?" +:+ query else "").
Proof.
  intros Hno. unfold Proxy.redditUrl. unfold ends_in_json in Hno.
  rewrite Hno, concat_last.
  set (p := String.concat "/" (init ++ [last])).
  assert (Hyes : String.prefix (String.rev ".json") (String.rev (p +:+ ".json")) = true).
  { unfold String.rev at 2. rewrite rev_app_append, rev_app_acc.
    apply prefix_append. }
  rewrite Hyes, length_append.
  replace (String.length p + String.length ".json" - 5) with (String.length p)
    by (cbn; lia).
  rewrite substring_append. split; reflexivity.
Qed.

(** The theorem for [/r/listentothis/hot]. *)
Lemma redditUrl_ignores_json_suffix_witness :
  Proxy.redditUrl ["r"; "listentothis"; "hot.json"] "limit=100"
  = Proxy.redditUrl ["r"; "listentothis"; "hot"] "limit=100".
Proof.
  exact (proj1 (redditUrl_ignores_json_suffix ["r"; "listentothis"] "hot"
                  "limit=100" eq_refl)).
Defined.

(** ** The proxy's retries *)

Lemma retry_rejected (upstream : nat -> Proxy.Attempt) (n a : nat) (l : Proxy.Loop)
    (e : error) :
  a < 2 ->
  Proxy.result (upstream a) = Rejected e ->
  (Proxy.now (Proxy.wait a l) + delay (upstream a) < Proxy.timeout)%N ->
  Proxy.retry upstream (S n) a l
  = Proxy.retry upstream n (S a)
      {| Proxy.response := Proxy.response (Proxy.wait a l);
         Proxy.lastError := Some e;
         Proxy.now := (Proxy.now (Proxy.wait a l) + delay (upstream a))%N;
         Proxy.waits := Proxy.waits (Proxy.wait a l);
         Proxy.fetches := S (Proxy.fetches (Proxy.wait a l)) |}.
Proof.
  intros Ha Hr Ht. cbn [Proxy.retry].
  rewrite (fetch_in_time _ _ Ht), Hr.
  rewrite (bool_decide_eq_false_2 (a = 2)) by lia. reflexivity.
Qed.

(** A retried attempt answered in time: the loop goes on to the next attempt,
    the time now being that of the answer. *)
Lemma retry_retried (upstream : nat -> Proxy.Attempt) (n a : nat) (l : Proxy.Loop) :
  a < 2 -> retried (upstream a) ->
  (Proxy.now l + backoff a + delay (upstream a) < Proxy.timeout)%N ->
  exists l',
    Proxy.retry upstream (S n) a l = Proxy.retry upstream n (S a) l'
    /\ Proxy.now l' = (Proxy.now l + backoff a + delay (upstream a))%N
    /\ Proxy.fetches l' = S (Proxy.fetches l)
    /\ Proxy.waits l' = Proxy.waits l ++ backoffs a 1.
Proof.
  intros Ha Hre Ht.
  destruct (wait_now a l) as (Hn & Hw & Hf & _).
  assert (Hb : total (backoffs a 1) = backoff a).
  { unfold backoffs, backoff, total. cbn [seq flat_map].
    destruct (bool_decide (0 < a)) eqn:E; cbn; [lia|].
    apply bool_decide_eq_false in E. replace a with 0 by lia. reflexivity. }
  rewrite Hb in Hn.
  destruct Hre as [(r & Hr & Hs)|(e & He)].
  - eexists. split; [apply (retry_403 upstream n a l r Ha Hr Hs); lia|].
    cbn [Proxy.now Proxy.fetches Proxy.waits]. rewrite Hn, Hf, Hw. auto.
  - eexists. split; [apply (retry_rejected upstream n a l e Ha He); lia|].
    cbn [Proxy.now Proxy.fetches Proxy.waits]. rewrite Hn, Hf, Hw. auto.
Qed.

(** X18.  The proxy makes up for a thrown error as it does for a 403: when
    each of the first [k] attempts ([k] at most 2) throws or answers 403, and
    the next attempt answers 200 with a JSON object or array, every answer
    arriving before the timer fires, the caller gets the data with status
    200, after [k + 1] fetches. *)
Theorem errors_are_retried (q : Proxy.Request) (cache : gmap string (json * Z))
    (k : nat) (r : Proxy.Response) (j : json) :
  miss q cache ->
  k <= 2 ->
  (forall i, i < k -> retried (Proxy.upstream q i)) ->
  Proxy.result (Proxy.upstream q k) = Resolved r ->
  Proxy.ok r = true ->
  Proxy.json_ r = Resolved j ->
  passable j = true ->
  (arrival (Proxy.upstream q) k < Proxy.timeout)%N ->
  snd (Proxy.GET q cache)
  = {| Proxy.reply_status := 200; Proxy.body := Proxy.data j |}
  /\ Proxy.fetches (loop_of (Proxy.retry (Proxy.upstream q) 3 0 Proxy.start)) = S k.
Proof.
  intros Hmiss Hk Hre Hr Hok Hj Hp Ht.
  rewrite (GET_miss _ _ Hmiss).
  assert (Hb0 : backoff 0 = 0%N) by reflexivity.
  assert (Hfin : forall n a l,
            (Proxy.now l + backoff a + delay (Proxy.upstream q a) < Proxy.timeout)%N ->
            Proxy.result (Proxy.upstream q a) = Resolved r ->
            exists l', Proxy.retry (Proxy.upstream q) (S n) a l = Proxy.done l'
                       /\ Proxy.response l' = Some r
                       /\ Proxy.fetches l' = S (Proxy.fetches l)).
  { intros n a l Hin Hra.
    destruct (wait_now a l) as (Hn & _ & Hf & _).
    assert (Hb : total (backoffs a 1) = backoff a).
    { unfold backoffs, backoff, total. cbn [seq flat_map].
      destruct (bool_decide (0 < a)) eqn:E; cbn; [lia|].
      apply bool_decide_eq_false in E. replace a with 0 by lia. reflexivity. }
    eexists. split; [apply (retry_ok _ n a l r Hra Hok); lia|].
    cbn [Proxy.response Proxy.fetches]. rewrite Hf. auto. }
  assert (k = 0 \/ k = 1 \/ k = 2) as [->|[->| ->]] by lia; cbn [arrival] in Ht.
  - destruct (Hfin 2 0 Proxy.start) as (l' & -> & Hresp & Hf);
      [cbn [Proxy.now Proxy.start]; rewrite Hb0; lia|exact Hr|].
    rewrite (respond_ok _ _ _ _ r j) by assumption.
    split; [reflexivity|]. cbn [loop_of]. rewrite Hf. reflexivity.
  - destruct (retry_retried (Proxy.upstream q) 2 0 Proxy.start)
      as (l1 & -> & Hn1 & Hf1 & _);
      [lia|apply Hre; lia|cbn [Proxy.now Proxy.start]; rewrite Hb0; lia|].
    cbn [Proxy.now Proxy.start] in Hn1. rewrite Hb0 in Hn1.
    destruct (Hfin 1 1 l1) as (l' & -> & Hresp & Hf); [rewrite Hn1; lia|exact Hr|].
    rewrite (respond_ok _ _ _ _ r j) by assumption.
    split; [reflexivity|]. cbn [loop_of]. rewrite Hf, Hf1. reflexivity.
  - destruct (retry_retried (Proxy.upstream q) 2 0 Proxy.start)
      as (l1 & -> & Hn1 & Hf1 & _);
      [lia|apply Hre; lia|cbn [Proxy.now Proxy.start]; rewrite Hb0; lia|].
    cbn [Proxy.now Proxy.start] in Hn1. rewrite Hb0 in Hn1.
    destruct (retry_retried (Proxy.upstream q) 1 1 l1)
      as (l2 & -> & Hn2 & Hf2 & _); [lia|apply Hre; lia|rewrite Hn1; lia|].
    destruct (Hfin 0 2 l2) as (l' & -> & Hresp & Hf);
      [rewrite Hn2, Hn1; lia|exact Hr|].
    rewrite (respond_ok _ _ _ _ r j) by assumption.
    split; [reflexivity|]. cbn [loop_of]. rewrite Hf, Hf2, Hf1. reflexivity.
Qed.

(** The theorem for two thrown errors and then the listing. *)
Lemma errors_are_retried_witness :
  snd (Proxy.GET (request_after_errors 2) ∅)
  = {| Proxy.reply_status := 200; Proxy.body := Proxy.data (JObj ∅) |}.
Proof.
  refine (proj1 (errors_are_retried (request_after_errors 2) ∅ 2 listing (JObj ∅)
                   _ _ _ _ _ _ _ _)).
  - split; [discriminate|]. rewrite lookup_empty. exact I.
  - lia.
  - intros i Hi. right. eexists. cbn.
    rewrite bool_decide_eq_true_2 by exact Hi. reflexivity.
  - reflexivity.
  - reflexivity.
  - reflexivity.
  - reflexivity.
  - vm_compute. reflexivity.
Defined.

(** X19.  An error status other than 403 is not retried: when the first
    attempt is answered in time with a status outside 200-299 that is not
    403, the proxy makes no second attempt and no wait, and leaves the cache
    as it is.  It passes the status on with an error object when a reply with
    a body can carry it (a status from 300 to 599 other than 304); for any
    other status building the reply throws, and the caller gets the generic
    error with status 500. *)
Theorem other_status_not_retried (q : Proxy.Request)
    (cache : gmap string (json * Z)) (r : Proxy.Response) (errorText : string) :
  miss q cache ->
  Proxy.result (Proxy.upstream q 0) = Resolved r ->
  Proxy.ok r = false -> Proxy.status r <> 403%Z ->
  Proxy.text r = Resolved errorText ->
  (delay (Proxy.upstream q 0) < Proxy.timeout)%N ->
  (carries_body (Proxy.status r) ->
   Proxy.GET q cache
   = (cache, {| Proxy.reply_status := Proxy.status r;
                Proxy.body := Proxy.failure "Failed to fetch from Reddit API" |}))
  /\ (~ carries_body (Proxy.status r) ->
      Proxy.GET q cache
      = (cache, {| Proxy.reply_status := 500;
                   Proxy.body := Proxy.failure "Internal server error" |}))
  /\ Proxy.fetches (loop_of (Proxy.retry (Proxy.upstream q) 3 0 Proxy.start)) = 1
  /\ Proxy.waits (loop_of (Proxy.retry (Proxy.upstream q) 3 0 Proxy.start)) = [].
Proof.
  intros Hmiss Hr Hok Hs Htext Ht.
  rewrite (GET_miss _ _ Hmiss).
  assert (Hrun : Proxy.retry (Proxy.upstream q) 3 0 Proxy.start
                 = Proxy.done {| Proxy.response := Some r; Proxy.lastError := None;
                                 Proxy.now := delay (Proxy.upstream q 0);
                                 Proxy.waits := []; Proxy.fetches := 1 |}).
  { cbn [Proxy.retry]. unfold Proxy.wait.
    rewrite (bool_decide_eq_false_2 (0 < 0)) by lia.
    rewrite (fetch_in_time (Proxy.now Proxy.start) (Proxy.upstream q 0))
      by (cbn [Proxy.now Proxy.start]; lia).
    rewrite Hr, Hok.
    rewrite (bool_decide_eq_false_2 (Proxy.status r = 403%Z)) by exact Hs.
    reflexivity. }
  rewrite Hrun. unfold Proxy.respond. cbn [Proxy.response loop_of
    Proxy.fetches Proxy.waits]. rewrite Hok, Htext. cbn [negb].
  split; [|split; [|split; reflexivity]].
  - intros Hc. rewrite (NextResponse_json_carries _ _ Hc). reflexivity.
  - intros Hc.
    destruct (NextResponse_json_throws
                (Proxy.failure "Failed to fetch from Reddit API") _ Hc)
      as (e & -> & ->).
    reflexivity.
Qed.

(** The theorem for an upstream that answers 500, which is passed on, and for
    one that answers 304, which is not. *)
Lemma other_status_not_retried_witness :
  let r := fun status =>
             {| Proxy.status := status; Proxy.text := Resolved "";
                Proxy.json_ := Rejected SyntaxError |} in
  let q := fun status =>
             {| Proxy.method := "GET";
                Proxy.pathSegments := ["r"; "listentothis"; "hot.json"];
                Proxy.query := "limit=100";
                Proxy.upstream := fun _ =>
                  {| Proxy.latency := Some 200%N;
                     Proxy.result := Resolved (r status) |};
                Proxy.read_at := 0; Proxy.written_at := 1000 |} in
  Proxy.GET (q 500%Z) ∅
  = (∅, {| Proxy.reply_status := 500;
           Proxy.body := Proxy.failure "Failed to fetch from Reddit API" |})
  /\ Proxy.GET (q 304%Z) ∅
     = (∅, {| Proxy.reply_status := 500;
              Proxy.body := Proxy.failure "Internal server error" |}).
Proof.
  intros r q. split.
  - refine (proj1 (other_status_not_retried (q 500%Z) ∅ (r 500%Z) "" _ _ _ _ _ _) _).
    + split; [discriminate|]. rewrite lookup_empty. exact I.
    + reflexivity.
    + reflexivity.
    + discriminate.
    + reflexivity.
    + vm_compute. reflexivity.
    + unfold carries_body. cbn. lia.
  - refine (proj1 (proj2 (other_status_not_retried (q 304%Z) ∅ (r 304%Z) ""
                            _ _ _ _ _ _)) _).
    + split; [discriminate|]. rewrite lookup_empty. exact I.
    + reflexivity.
    + reflexivity.
    + discriminate.
    + reflexivity.
    + vm_compute. reflexivity.
    + unfold carries_body. cbn. lia.
Defined.

(** ** The comments route *)

(** X20.  The comments route asks the upstream at most once: not at all
    without a permalink, which is answered with status 400, and otherwise
    once, at the permalink with [.json] and the sort order, [top] when none
    is given.  The reply is fixed by what the upstream does: an ok response
    whose body is JSON is answered with status 200 and that payload, whatever
    it is; an error status is passed on with an error object when a reply
    with a body can carry it; and a rejected fetch, a body that is not JSON
    and an error status that no reply can carry are answered with status
    500. *)
Theorem comments_GET_replies (q : Comments.Request) :
  let internal := {| Proxy.reply_status := 500;
                     Proxy.body := Proxy.failure "Internal server error" |} in
  (truthy_str (Comments.permalink q) = false ->
   Comments.GET q
   = ([], {| Proxy.reply_status := 400;
             Proxy.body := Proxy.failure "Missing permalink parameter" |}))
  /\ (forall p, Comments.permalink q = Some p -> p <> "" ->
        fst (Comments.GET q)
        = ["https://www.reddit.com" +:+ p +:+ ".json?sort="
           +:+ (if truthy_str (Comments.sort q)
                then default "top" (Comments.sort q) else "top")]
        /\ (forall e, Comments.upstream q = Rejected e ->
              snd (Comments.GET q) = internal)
        /\ (forall r, Comments.upstream q = Resolved r -> Proxy.ok r = false ->
              (carries_body (Proxy.status r) ->
               snd (Comments.GET q)
               = {| Proxy.reply_status := Proxy.status r;
                    Proxy.body := Proxy.failure "Failed to fetch comments" |})
              /\ (~ carries_body (Proxy.status r) ->
                  snd (Comments.GET q) = internal))
        /\ (forall r j, Comments.upstream q = Resolved r -> Proxy.ok r = true ->
              Proxy.json_ r = Resolved j ->
              snd (Comments.GET q)
              = {| Proxy.reply_status := 200; Proxy.body := Proxy.data j |})
        /\ (forall r e, Comments.upstream q = Resolved r -> Proxy.ok r = true ->
              Proxy.json_ r = Rejected e ->
              snd (Comments.GET q) = internal)).
Proof.
  cbv zeta. unfold Comments.GET. split.
  - destruct (Comments.permalink q) as [p|]; cbn; [|reflexivity].
    intros H. apply negb_false_iff in H. rewrite H. reflexivity.
  - intros p -> Hp. rewrite (proj2 (String.eqb_neq _ _) Hp). cbn [negb fst snd].
    split; [reflexivity|]. split; [|split; [|split]].
    + intros e ->. reflexivity.
    + intros r -> Hok. rewrite Hok. cbn [negb]. split; intros Hc.
      * rewrite (NextResponse_json_carries _ _ Hc). reflexivity.
      * destruct (NextResponse_json_throws
                    (Proxy.failure "Failed to fetch comments") _ Hc) as (e & -> & _).
        reflexivity.
    + intros r j -> Hok Hj. rewrite Hok, Hj. reflexivity.
    + intros r e -> Hok Hj. rewrite Hok, Hj. reflexivity.
Qed.

(** The theorem for the comments of a post: asked for without a sort order
    when the upstream answers 404, and when it answers with a payload. *)
Lemma comments_GET_replies_witness :
  let q := fun r =>
             {| Comments.permalink := Some "/r/jazz/comments/abc/so_what/";
                Comments.sort := None; Comments.upstream := Resolved r |} in
  let gone := {| Proxy.status := 404; Proxy.text := Resolved "Not Found";
                 Proxy.json_ := Rejected SyntaxError |} in
  Comments.GET (q gone)
  = (["https://www.reddit.com/r/jazz/comments/abc/so_what/.json?sort=top"],
     {| Proxy.reply_status := 404;
        Proxy.body := Proxy.failure "Failed to fetch comments" |})
  /\ snd (Comments.GET (q listing))
     = {| Proxy.reply_status := 200; Proxy.body := Proxy.data (JObj ∅) |}.
Proof.
  intros q gone. split.
  - destruct (proj2 (comments_GET_replies (q gone)) _ eq_refl) as (Hu & _ & Hs & _).
    + discriminate.
    + rewrite (surjective_pairing (Comments.GET (q gone))), Hu.
      rewrite (proj1 (Hs gone eq_refl eq_refl)); [reflexivity|].
      unfold carries_body. cbn. lia.
  - destruct (proj2 (comments_GET_replies (q listing)) _ eq_refl)
      as (_ & _ & _ & Hd & _).
    + discriminate.
    + apply (Hd listing (JObj ∅)); reflexivity.
Defined.

(** ** The requests of the hook *)

(** X21.  Every request of the hook asks for 100 items, as its last
    parameter; it carries the cursor exactly when a non-empty one was given,
    the time window exactly when the sort is [top], and the query, first,
    exactly when it is a search.  With a search query in the store,
    [fetchMusic] is that search, whatever subreddits are selected. *)
Theorem request_parameters (v : RedditMusic.StoreView) (t : RedditMusic.Target)
    (after : option string) (h : RedditMusic.Hook) :
  let ps := RedditMusic.params (RedditMusic.request (RedditMusic.start v t after h)) in
  last ps = Some ("limit", "100")
  /\ (forall a, ("after", a) ∈ ps <-> after = Some a /\ a <> "")
  /\ (forall w, ("t", w) ∈ ps
                <-> RedditMusic.sortMethod v = "top" /\ w = RedditMusic.topMethod v)
  /\ (forall x, ("q", x) ∈ ps <-> t = RedditMusic.Search x)
  /\ (RedditMusic.searchQuery v <> "" ->
      RedditMusic.fetchMusic v after h
      = RedditMusic.fetchSearch v (RedditMusic.searchQuery v) after h).
Proof.
  cbv zeta. unfold RedditMusic.start, RedditMusic.build_params.
  cbn [RedditMusic.request RedditMusic.params].
  split; [rewrite !last_app; reflexivity|].
  split; [|split; [|split]].
  - intros a.
    destruct t, (String.eqb_spec (RedditMusic.sortMethod v) "top"),
      after as [c|]; cbn [truthy_str app];
      try destruct (String.eqb_spec c ""); cbn [negb app];
      list_membership; split; intros H;
      try (decompose [or and] H; try discriminate; try contradiction;
           try (simplify_eq; auto; fail));
      try (destruct H as [H1 H2]; simplify_eq; auto 10; try contradiction).
  - intros w.
    destruct t, (String.eqb_spec (RedditMusic.sortMethod v) "top"),
      after as [c|]; cbn [truthy_str app];
      try destruct (String.eqb_spec c ""); cbn [negb app];
      list_membership; split; intros H;
      try (decompose [or and] H; try discriminate; try contradiction;
           try (simplify_eq; auto; fail));
      try (destruct H as [H1 H2]; simplify_eq; auto 10; try contradiction).
  - intros x.
    destruct t, (String.eqb_spec (RedditMusic.sortMethod v) "top"),
      after as [c|]; cbn [truthy_str app];
      try destruct (String.eqb_spec c ""); cbn [negb app];
      list_membership; split; intros H;
      try (decompose [or and] H; try discriminate; try contradiction;
           try (simplify_eq; auto; fail));
      try (simplify_eq; auto 10).
  - intros Hq. unfold RedditMusic.fetchMusic.
    rewrite (proj2 (String.eqb_neq _ _) Hq). reflexivity.
Qed.

(** ** The proxy's retries, exhausted *)

Lemma retry_rejected_last (upstream : nat -> Proxy.Attempt) (n : nat)
    (l : Proxy.Loop) (e : error) :
  Proxy.result (upstream 2) = Rejected e ->
  (Proxy.now (Proxy.wait 2%nat l) + delay (upstream 2%nat) < Proxy.timeout)%N ->
  exists l', Proxy.retry upstream (S n) 2 l = Proxy.thrown e l'
             /\ Proxy.fetches l' = S (Proxy.fetches l).
Proof.
  intros Hr Ht. cbn [Proxy.retry].
  rewrite (fetch_in_time _ _ Ht), Hr.
  rewrite (bool_decide_eq_true_2 (2 = 2)) by reflexivity.
  eexists. split; [reflexivity|]. cbn [Proxy.fetches].
  rewrite (proj1 (proj2 (proj2 (wait_now 2 l)))). reflexivity.
Qed.

(** X22.  When the first two attempts each throw or answer 403 and the third
    fails too, all in time, it is the third failure that the caller gets: a
    third 403 is passed on with status 403, and a third exception is
    answered by its class; the proxy has then made three fetches. *)
Theorem third_failure_is_reported (q : Proxy.Request)
    (cache : gmap string (json * Z)) :
  miss q cache ->
  retried (Proxy.upstream q 0) -> retried (Proxy.upstream q 1) ->
  (arrival (Proxy.upstream q) 2 < Proxy.timeout)%N ->
  Proxy.fetches (loop_of (Proxy.retry (Proxy.upstream q) 3 0 Proxy.start)) = 3
  /\ (forall r errorText,
        Proxy.result (Proxy.upstream q 2) = Resolved r ->
        Proxy.status r = 403%Z -> Proxy.text r = Resolved errorText ->
        Proxy.GET q cache
        = (cache, {| Proxy.reply_status := 403;
                     Proxy.body := Proxy.failure "Failed to fetch from Reddit API" |}))
  /\ (forall e, Proxy.result (Proxy.upstream q 2) = Rejected e ->
        Proxy.GET q cache = (cache, Proxy.catch_ e)).
Proof.
  intros Hmiss H0 H1 Ht. rewrite (GET_miss _ _ Hmiss).
  assert (Hb0 : backoff 0 = 0%N) by reflexivity.
  cbn [arrival] in Ht.
  destruct (retry_retried (Proxy.upstream q) 2 0 Proxy.start)
    as (l1 & -> & Hn1 & Hf1 & _);
    [lia|exact H0|cbn [Proxy.now Proxy.start]; rewrite Hb0; lia|].
  cbn [Proxy.now Proxy.start] in Hn1. rewrite Hb0 in Hn1.
  destruct (retry_retried (Proxy.upstream q) 1 1 l1)
    as (l2 & -> & Hn2 & Hf2 & _); [lia|exact H1|rewrite Hn1; lia|].
  assert (Hin : (Proxy.now (Proxy.wait 2%nat l2) + delay (Proxy.upstream q 2%nat)
                 < Proxy.timeout)%N).
  { rewrite (proj1 (wait_now 2 l2)), Hn2, Hn1.
    change (total (backoffs 2 1)) with (backoff 2). lia. }
  assert (Hf3 : Proxy.fetches
                  (loop_of (Proxy.retry (Proxy.upstream q) 1 2 l2)) = 3).
  { destruct (retry_ends (Proxy.upstream q) 1 2 l2 eq_refl) as (m & Hm & Hf & _);
      [lia|]. rewrite Hf, Hf2, Hf1. cbn [Proxy.start Proxy.fetches]. lia. }
  split; [exact Hf3|]. split.
  - intros r errorText Hr Hs Htext.
    rewrite (retry_403_last _ _ _ r Hr Hs Hin).
    unfold Proxy.respond. cbn [Proxy.response]. unfold Proxy.ok.
    rewrite Hs, Htext.
    rewrite (bool_decide_eq_false_2 (200 <= 403 <= 299)%Z) by lia. reflexivity.
  - intros e He.
    destruct (retry_rejected_last (Proxy.upstream q) 0 l2 e He Hin) as (l' & -> & _).
    reflexivity.
Qed.

(** The theorem for three thrown errors: the third is classified. *)
Lemma third_failure_is_reported_witness :
  Proxy.reply_status (snd (Proxy.GET (request_after_errors 3) ∅)) = 500%Z.
Proof.
  destruct (third_failure_is_reported (request_after_errors 3) ∅) as (_ & _ & H).
  - split; [discriminate|]. rewrite lookup_empty. exact I.
  - right. eexists. reflexivity.
  - right. eexists. reflexivity.
  - vm_compute. reflexivity.
  - rewrite (H _ eq_refl). reflexivity.
Defined.

(** ** The proxy's timer and malformed payloads *)

Lemma backoffs_1 (a : nat) : total (backoffs a 1) = backoff a.
Proof.
  unfold backoffs, backoff, total. cbn [seq flat_map].
  destruct (bool_decide (0 < a)) eqn:E; cbn; [lia|].
  apply bool_decide_eq_false in E. replace a with 0 by lia. reflexivity.
Qed.


(** The retried attempts before attempt [k], each answered in time: the loop
    arrives at attempt [k] with [k] fetches made, at the time the last answer
    came. *)
Lemma retry_reaches (upstream : nat -> Proxy.Attempt) (k : nat) :
  k <= 2 ->
  (forall i, i < k -> retried (upstream i) /\ (arrival upstream i < Proxy.timeout)%N) ->
  exists l,
    Proxy.retry upstream 3 0 Proxy.start = Proxy.retry upstream (3 - k) k l
    /\ (Proxy.now l + backoff k + delay (upstream k) = arrival upstream k)%N
    /\ Proxy.fetches l = k
    /\ Proxy.waits l = backoffs 0 k
    /\ (Proxy.now l < Proxy.timeout)%N.
Proof.
  intros Hk Hre.
  assert (Hb0 : backoff 0 = 0%N) by reflexivity.
  assert (k = 0 \/ k = 1 \/ k = 2) as [->|[->| ->]] by lia; cbn [arrival].
  - exists Proxy.start. cbn [Proxy.now Proxy.start Proxy.fetches Proxy.waits].
    rewrite Hb0. split; [reflexivity|]. split; [lia|].
    split; [reflexivity|]. split; [reflexivity|]. vm_compute. reflexivity.
  - destruct (Hre 0) as [H0 Ht0]; [lia|]. cbn [arrival] in Ht0.
    destruct (retry_retried upstream 2 0 Proxy.start)
      as (l1 & -> & Hn1 & Hf1 & Hw1);
      [lia|exact H0|cbn [Proxy.now Proxy.start]; rewrite Hb0; lia|].
    cbn [Proxy.now Proxy.start Proxy.fetches Proxy.waits] in Hn1, Hf1, Hw1.
    rewrite Hb0 in Hn1.
    exists l1. cbn [Nat.sub]. split; [reflexivity|]. rewrite Hn1, Hf1, Hw1.
    split; [lia|]. split; [reflexivity|]. split; [reflexivity|]. lia.
  - destruct (Hre 0) as [H0 Ht0]; [lia|]. destruct (Hre 1) as [H1 Ht1]; [lia|].
    cbn [arrival] in Ht0, Ht1.
    destruct (retry_retried upstream 2 0 Proxy.start)
      as (l1 & -> & Hn1 & Hf1 & Hw1);
      [lia|exact H0|cbn [Proxy.now Proxy.start]; rewrite Hb0; lia|].
    cbn [Proxy.now Proxy.start Proxy.fetches Proxy.waits] in Hn1, Hf1, Hw1.
    rewrite Hb0 in Hn1.
    destruct (retry_retried upstream 1 1 l1)
      as (l2 & -> & Hn2 & Hf2 & Hw2); [lia|exact H1|rewrite Hn1; lia|].
    exists l2. cbn [Nat.sub]. split; [reflexivity|].
    rewrite Hn2, Hn1, Hf2, Hf1, Hw2, Hw1.
    split; [lia|]. split; [reflexivity|]. split; [reflexivity|]. lia.
Qed.



(** The loop ends with the response of attempt [k]. *)
Lemma retry_answered (upstream : nat -> Proxy.Attempt) (k : nat) (r : Proxy.Response) :
  k <= 2 ->
  (forall i, i < k -> retried (upstream i) /\ (arrival upstream i < Proxy.timeout)%N) ->
  Proxy.result (upstream k) = Resolved r -> Proxy.ok r = true ->
  (arrival upstream k < Proxy.timeout)%N ->
  exists l, Proxy.retry upstream 3 0 Proxy.start = Proxy.done l
            /\ Proxy.response l = Some r
            /\ Proxy.fetches l = S k.
Proof.
  intros Hk Hre Hr Hok Ht.
  destruct (retry_reaches upstream k Hk Hre) as (l0 & -> & Hn & Hf & _).
  destruct (wait_now k l0) as (Hw_now & _ & Hw_f & _).
  rewrite backoffs_1 in Hw_now.
  assert (3 - k = S (2 - k)) as -> by lia.
  rewrite (retry_ok upstream (2 - k) k l0 r Hr Hok) by (rewrite Hw_now; lia).
  eexists. split; [reflexivity|]. cbn [Proxy.response Proxy.fetches].
  rewrite Hw_f, Hf. auto.
Qed.

(** X25.  When the attempts before attempt [k] are retried and attempt [k]
    is answered in time with an ok status, a body that is not JSON is
    answered with status 500 and the invalid-JSON error, and a payload that
    is not an object or array (or is [null]) with status 500 and the
    invalid-response error; the cache is left as it is, and the proxy has
    made [k + 1] fetches. *)
Theorem malformed_payload_answers_500 (q : Proxy.Request)
    (cache : gmap string (json * Z)) (k : nat) (r : Proxy.Response) :
  miss q cache ->
  k <= 2 ->
  (forall i, i < k ->
     retried (Proxy.upstream q i)
     /\ (arrival (Proxy.upstream q) i < Proxy.timeout)%N) ->
  Proxy.result (Proxy.upstream q k) = Resolved r ->
  Proxy.ok r = true ->
  (arrival (Proxy.upstream q) k < Proxy.timeout)%N ->
  (Proxy.json_ r = Rejected SyntaxError ->
   Proxy.GET q cache
   = (cache, {| Proxy.reply_status := 500;
                Proxy.body := Proxy.failure "Invalid JSON response from Reddit API" |}))
  /\ (forall j, Proxy.json_ r = Resolved j -> passable j = false ->
        Proxy.GET q cache
        = (cache, {| Proxy.reply_status := 500;
                     Proxy.body := Proxy.failure "Invalid response from Reddit API" |}))
  /\ Proxy.fetches (loop_of (Proxy.retry (Proxy.upstream q) 3 0 Proxy.start)) = S k.
Proof.
  intros Hmiss Hk Hre Hr Hok Ht. rewrite (GET_miss _ _ Hmiss).
  destruct (retry_answered (Proxy.upstream q) k r Hk Hre Hr Hok Ht)
    as (l & -> & Hresp & Hf).
  unfold Proxy.respond. rewrite Hresp, Hok. cbn [negb loop_of].
  split; [|split; [|exact Hf]].
  - intros ->. reflexivity.
  - intros j -> Hp. unfold passable in Hp.
    destruct (truthy (Some j)), (typeof_object (Some j)); try discriminate;
      reflexivity.
Qed.

(** The theorem for a 403 followed by a page of HTML with status 200. *)
Lemma malformed_payload_answers_500_witness :
  let page := {| Proxy.status := 200; Proxy.text := Resolved "<html>";
                 Proxy.json_ := Rejected SyntaxError |} in
  let q := {| Proxy.method := "GET";
              Proxy.pathSegments := ["r"; "listentothis"; "hot.json"];
              Proxy.query := "limit=100";
              Proxy.upstream := fun k =>
                {| Proxy.latency := Some 200%N;
                   Proxy.result :=
                     Resolved (if bool_decide (k < 1) then forbidden else page) |};
              Proxy.read_at := 0; Proxy.written_at := 2000 |} in
  Proxy.GET q ∅
  = (∅, {| Proxy.reply_status := 500;
           Proxy.body := Proxy.failure "Invalid JSON response from Reddit API" |}).
Proof.
  intros page q.
  refine (proj1 (malformed_payload_answers_500 q ∅ 1 page _ _ _ _ _ _) _).
  - split; [discriminate|]. rewrite lookup_empty. exact I.
  - lia.
  - intros i Hi. assert (i = 0) as -> by lia. split.
    + left. exists forbidden. split; reflexivity.
    + vm_compute. reflexivity.
  - reflexivity.
  - reflexivity.
  - vm_compute. reflexivity.
  - reflexivity.
Defined.
